(** * Fixed-protein recipe scaler (scaler-fixed-protein.js)

    A shallow embedding of the three-stage scaling pipeline and of the
    helpers it is built from, together with the properties of the
    pipeline stated in the repository's specification.

    Modelling conventions.
    - A JavaScript number is a [num]: a rational, NaN, +Infinity or
      -Infinity.  Arithmetic on finite values is exact (the rounding of
      IEEE doubles is abstracted away) and there is a single zero.
    - An ingredient object is a record whose fields are optional
      ([None] reads as undefined/null).  Objects live in a heap and are
      addressed by location; arrays of ingredients are lists of
      locations, so that aliasing and in-place mutation are visible.
    - Strings are byte strings; case mapping is the ASCII one and a
      regular expression of the source, always an alternation of
      literal words, is the list of its words. *)

From Stdlib Require Import QArith Qround Qabs Lqa ZArith Lia.
From Stdlib Require Qcanon.
From stdpp Require Import base list strings sorting gmap.

Local Open Scope Z_scope.

(** ** JavaScript numbers *)

Inductive num : Type :=
| Fin (q : Q)
| NaN
| PInf
| NInf.

Definition isFinite (x : num) : bool :=
  match x with Fin _ => true | _ => false end.

Definition Qzerob (q : Q) : bool := Qeq_bool q 0.
Definition Qposb (q : Q) : bool := negb (Qle_bool q 0).
Definition Qltb (a b : Q) : bool := negb (Qle_bool b a).

Definition nneg (x : num) : num :=
  match x with
  | Fin q => Fin (Qred (- q))
  | NaN => NaN
  | PInf => NInf
  | NInf => PInf
  end.

Definition nadd (x y : num) : num :=
  match x, y with
  | NaN, _ | _, NaN => NaN
  | Fin a, Fin b => Fin (Qred (a + b))
  | PInf, NInf | NInf, PInf => NaN
  | PInf, _ | _, PInf => PInf
  | NInf, _ | _, NInf => NInf
  end.

Definition nsub (x y : num) : num := nadd x (nneg y).

(** Infinity times a finite value: the sign decides, zero gives NaN. *)
Definition inf_times (pos : bool) (q : Q) : num :=
  if Qzerob q then NaN
  else if Bool.eqb pos (Qposb q) then PInf else NInf.

Definition nmul (x y : num) : num :=
  match x, y with
  | NaN, _ | _, NaN => NaN
  | Fin a, Fin b => Fin (Qred (a * b))
  | PInf, Fin q | Fin q, PInf => inf_times true q
  | NInf, Fin q | Fin q, NInf => inf_times false q
  | PInf, PInf | NInf, NInf => PInf
  | PInf, NInf | NInf, PInf => NInf
  end.

Definition ndiv (x y : num) : num :=
  match x, y with
  | NaN, _ | _, NaN => NaN
  | Fin a, Fin b =>
      if Qzerob b then
        if Qzerob a then NaN else if Qposb a then PInf else NInf
      else Fin (Qred (a / b))
  | Fin _, (PInf | NInf) => Fin 0
  | PInf, Fin q => if Qltb q 0 then NInf else PInf
  | NInf, Fin q => if Qltb q 0 then PInf else NInf
  | (PInf | NInf), (PInf | NInf) => NaN
  end.

(** Comparisons: every comparison with NaN is false. *)
Definition nle (x y : num) : bool :=
  match x, y with
  | NaN, _ | _, NaN => false
  | Fin a, Fin b => Qle_bool a b
  | NInf, _ | _, PInf => true
  | _, _ => false
  end.

Definition nlt (x y : num) : bool :=
  match x, y with
  | NaN, _ | _, NaN => false
  | Fin a, Fin b => Qltb a b
  | PInf, _ | _, NInf => false
  | _, _ => true
  end.

Definition ngt (x y : num) : bool := nlt y x.

(** [Math.max] of two arguments. *)
Definition nmax (x y : num) : num :=
  match x, y with
  | NaN, _ | _, NaN => NaN
  | _, _ => if nle x y then y else x
  end.

(** [Math.abs]. *)
Definition nabs (x : num) : num :=
  match x with
  | Fin q => Fin (Qred (Qabs q))
  | NaN => NaN
  | PInf | NInf => PInf
  end.

(** [Math.round]: nearest integer, halves towards +Infinity. *)
Definition Qround_half_up (q : Q) : Z := Qfloor (q + (1 # 2)).

Definition nround (x : num) : num :=
  match x with
  | Fin q => Fin (inject_Z (Qround_half_up q))
  | _ => x
  end.

(** Truthiness of a number: false for 0 and NaN. *)
Definition truthy (x : num) : bool :=
  match x with
  | Fin q => negb (Qzerob q)
  | NaN => false
  | PInf | NInf => true
  end.

(** [x || d] on numbers. *)
Definition num_or (x d : num) : num := if truthy x then x else d.

(** [x || 0] for a possibly absent numeric field. *)
Definition or0 (x : option num) : num :=
  match x with
  | Some v => num_or v (Fin 0)
  | None => Fin 0
  end.

(** [sum(arr, fn)]: a left fold starting from 0. *)
Definition sum {A} (arr : list A) (fn : A -> num) : num :=
  fold_left (fun a x => nadd a (fn x)) arr (Fin 0).

(** ** Strings and the regular expressions of the classifier *)

Definition lower_ascii (c : Ascii.ascii) : Ascii.ascii :=
  let n := Ascii.nat_of_ascii c in
  if ((65 <=? n) && (n <=? 90))%nat then Ascii.ascii_of_nat (n + 32) else c.

Fixpoint toLowerCase (s : string) : string :=
  match s with
  | EmptyString => EmptyString
  | String c r => String (lower_ascii c) (toLowerCase r)
  end.

(** [contains w s]: the word [w] occurs somewhere in [s]. *)
Fixpoint contains (w s : string) : bool :=
  String.prefix w s ||
  match s with
  | EmptyString => false
  | String _ r => contains w r
  end.

(** [/w1|w2|.../.test(s)] *)
Definition test (words : list string) (s : string) : bool :=
  existsb (fun w => contains w s) words.

(** [/w1|w2|.../i.test(s)] with lower-case words. *)
Definition test_i (words : list string) (s : string) : bool :=
  test words (toLowerCase s).

(** [a || b] on strings: the empty string is falsy. *)
Definition str_or (a : option string) (b : string) : string :=
  match a with
  | Some s => if String.eqb s "" then b else s
  | None => b
  end.

(** ** Ingredient records *)

Record Ingredient : Type := mkIngredient {
  name : option string;
  ingredient : option string;
  tags : option (list string);
  amount_g : option num;
  amount_cups : option num;
  calories_kcal : option num;
  protein_g : option num;
  _idx : option Z
}.

(** The object [{}]. *)
Definition empty_object : Ingredient :=
  mkIngredient None None None None None None None None.

(** Field assignments [i.field = v]. *)
Definition set_amount_g (v : num) (i : Ingredient) : Ingredient :=
  mkIngredient (name i) (ingredient i) (tags i) (Some v) (amount_cups i)
               (calories_kcal i) (protein_g i) (_idx i).

Definition set_amount_cups (v : num) (i : Ingredient) : Ingredient :=
  mkIngredient (name i) (ingredient i) (tags i) (amount_g i) (Some v)
               (calories_kcal i) (protein_g i) (_idx i).

Definition set_calories_kcal (v : num) (i : Ingredient) : Ingredient :=
  mkIngredient (name i) (ingredient i) (tags i) (amount_g i) (amount_cups i)
               (Some v) (protein_g i) (_idx i).

Definition set_protein_g (v : num) (i : Ingredient) : Ingredient :=
  mkIngredient (name i) (ingredient i) (tags i) (amount_g i) (amount_cups i)
               (calories_kcal i) (Some v) (_idx i).

Definition set__idx (v : Z) (i : Ingredient) : Ingredient :=
  mkIngredient (name i) (ingredient i) (tags i) (amount_g i) (amount_cups i)
               (calories_kcal i) (protein_g i) (Some v).

(** [JSON.parse(JSON.stringify(x))] on a numeric field: a number that
    is not finite is written as [null]. *)
Definition json_num (x : option num) : option num :=
  match x with
  | Some (Fin q) => Some (Fin q)
  | _ => None
  end.

(** The copy of one ingredient object made by [cloneDeep]. *)
Definition clone_object (i : Ingredient) : Ingredient :=
  mkIngredient (name i) (ingredient i) (tags i)
               (json_num (amount_g i)) (json_num (amount_cups i))
               (json_num (calories_kcal i)) (json_num (protein_g i))
               (_idx i).

(** [i.name || i.ingredient || ''] *)
Definition label (i : Ingredient) : string :=
  str_or (name i) (str_or (ingredient i) "").

(** [a._idx || 0] *)
Definition idx_or0 (i : Ingredient) : Z := default 0 (_idx i).

(** ** Ingredient classifier *)

Definition protein_tag_words : list string :=
  ["protein"; "chicken"; "turkey"; "shrimp"; "salmon"; "egg"; "yogurt";
   "cottage"; "tofu"; "tempeh"; "edamame"; "whey"; "casein"].
Definition protein_name_words : list string :=
  ["protein powder"; "chicken"; "turkey"; "shrimp"; "salmon"; "egg";
   "egg white"; "yogurt"; "cottage"; "tofu"; "tempeh"; "edamame"; "whey";
   "casein"].

Definition carbfat_tag_words : list string :=
  ["carb"; "grain"; "starch"; "fat"; "oil"; "cheese"; "nut"; "seed";
   "avocado"; "tortilla"; "rice"; "oats"; "bread"; "olive"].
Definition carbfat_name_words : list string :=
  ["tortilla"; "rice"; "oat"; "bread"; "pasta"; "oil"; "olive"; "butter";
   "cheese"; "avocado"; "nut"; "seed"; "granola"; "hummus"; "bean";
   "black bean"; "quinoa"; "farro"; "brown rice"].

Definition nonscaling_tag_words : list string :=
  ["spice"; "season"; "herb"; "zero"; "free"; "water"; "ice"; "extract"].
Definition nonscaling_name_words : list string :=
  ["salt"; "pepper"; "cinnamon"; "garlic powder"; "onion powder"; "paprika";
   "cumin"; "vanilla extract"; "ice"; "water"; "zero-cal"].

Definition classify (tag_words name_words : list string) (i : Ingredient)
  : bool :=
  let name := toLowerCase (label i) in
  let tags := default [] (tags i) in
  if existsb (fun t => test_i tag_words t) tags then true
  else test name_words name.

Definition isProtein : Ingredient -> bool :=
  classify protein_tag_words protein_name_words.
Definition isCarbFat : Ingredient -> bool :=
  classify carbfat_tag_words carbfat_name_words.
Definition isNonScaling : Ingredient -> bool :=
  classify nonscaling_tag_words nonscaling_name_words.

(** ** Totals *)

Module Totals.
Record t : Type := mk { calories_kcal : num; protein_g : num }.
End Totals.

Definition computeTotals (ings : list Ingredient) : Totals.t :=
  Totals.mk
    (nround (sum ings (fun i => or0 (calories_kcal i))))
    (ndiv (nround (nmul (sum ings (fun i => or0 (protein_g i))) (Fin 2)))
          (Fin 2)).

(** ** Quantity rounder *)

Definition frac : list num :=
  [Fin 0; Fin (1 # 8); Fin (1 # 6); Fin (1 # 4); Fin (1 # 3); Fin (1 # 2);
   Fin (2 # 3); Fin (3 # 4); Fin 1].

(** The callback of the reduction over [frac]. *)
Definition nearer (value a b : num) : num :=
  if nlt (nabs (nsub b value)) (nabs (nsub a value)) then b else a.

Definition roundAmount (name unit : string) (value : num) : num :=
  if negb (isFinite value) then Fin 0
  else if String.eqb unit "g" then
    let v := nmax (Fin 0) value in
    if nle v (Fin 20) then nround v
    else if nle v (Fin 150) then nmul (nround (ndiv v (Fin 5))) (Fin 5)
    else nmul (nround (ndiv v (Fin 10))) (Fin 10)
  else if String.eqb unit "cups" then
    fold_left (nearer value) frac (Fin 0)
  else value.

Definition guessGPerCup (name : string) : num :=
  let n := toLowerCase name in
  if test ["oat"; "granola"] n then Fin 80
  else if test ["rice"; "quinoa"; "farro"] n then Fin 160
  else if test ["berry"; "fruit"; "cucumber"; "tomato"; "zucchini"; "pepper"] n
  then Fin 140
  else if test ["yogurt"; "cottage"] n then Fin 245
  else if test ["bean"; "chickpea"; "edamame"] n then Fin 170
  else if test ["cheese"] n then Fin 120
  else if test ["avocado"] n then Fin 150
  else Fin 240.

(** ** Arrays: stable sort and findIndex *)

Section Arrays.
Context {A : Type}.

(** [arr.sort((a,b) => key a - key b)] for an integer key: the sort
    of JavaScript is stable, so the result is the stable sort by
    [key]. *)
Fixpoint insert_by (key : A -> Z) (x : A) (l : list A) : list A :=
  match l with
  | [] => [x]
  | y :: r => if key x <=? key y then x :: y :: r
              else y :: insert_by key x r
  end.

Definition sort_by (key : A -> Z) (l : list A) : list A :=
  foldr (insert_by key) [] l.

(** [arr.findIndex(p)]: the first index whose element satisfies [p],
    or -1. *)
Fixpoint findIndex (p : A -> bool) (l : list A) : Z :=
  match l with
  | [] => -1
  | x :: r => if p x then 0
              else let k := findIndex p r in
                   if k =? -1 then -1 else k + 1
  end.
End Arrays.

(** ** The heap of ingredient objects

    A location is an index into the heap; allocation appends.  Reading
    a location outside the heap (which no JavaScript execution does)
    yields the empty object and writing one does nothing. *)

Abbreviation loc := nat (only parsing).
Abbreviation heap := (list Ingredient) (only parsing).

Definition rd (h : heap) (l : loc) : Ingredient :=
  default empty_object (h !! l).

Definition M (A : Type) : Type := heap -> A * heap.

Definition ret {A} (a : A) : M A := fun h => (a, h).

Definition bind {A B} (c : M A) (k : A -> M B) : M B :=
  fun h => let (a, h') := c h in k a h'.

Notation "x <- c ;; k" := (bind c (fun x => k))
  (at level 100, c at next level, right associativity).

(** [arr.map(l => *l)]: the current contents of the objects of [arr]. *)
Definition read_all (arr : list loc) : M (list Ingredient) :=
  fun h => (map (rd h) arr, h).

(** Mutation of the object at [l] by the field assignments [f]. *)
Definition modify (f : Ingredient -> Ingredient) (l : loc) : M unit :=
  fun h => (tt, <[l := f (rd h l)]> h).

(** [cloneDeep(x)] is [JSON.parse(JSON.stringify(x))]: the whole array
    is serialised first, then fresh objects are built from the text. *)
Definition cloneDeep (x : list loc) : M (list loc) :=
  fun h => (seq (length h) (length x),
            h ++ map (fun l => clone_object (rd h l)) x).

(** [arr.filter(p)] *)
Definition filterA (p : Ingredient -> bool) (arr : list loc)
  : M (list loc) :=
  fun h => (List.filter (fun l => p (rd h l)) arr, h).

(** [sum(arr, fn)] on an array of objects. *)
Definition sumA (arr : list loc) (fn : Ingredient -> num) : M num :=
  vs <- read_all arr ;; ret (sum vs fn).

(** [arr.forEach(f)] *)
Fixpoint forEach (f : loc -> M unit) (arr : list loc) : M unit :=
  match arr with
  | [] => ret tt
  | l :: r => _ <- f l ;; forEach f r
  end.

(** [arr.sort((a,b) => (a._idx||0) - (b._idx||0))] *)
Definition sort_idx (arr : list loc) : M (list loc) :=
  fun h => (sort_by (fun l => idx_or0 (rd h l)) arr, h).

(** [arr.findIndex(p)] on an array of objects. *)
Definition findIndexA (p : Ingredient -> bool) (arr : list loc) : M Z :=
  fun h => (findIndex (fun l => p (rd h l)) arr, h).

(** [computeTotals(arr)] on an array of objects. *)
Definition computeTotalsA (arr : list loc) : M Totals.t :=
  vs <- read_all arr ;; ret (computeTotals vs).

(** ** Core steps *)

(** The body of the [forEach] of [scaleProteinToTarget]. *)
Definition scale_protein_item (factor : num) (P : Ingredient) : Ingredient :=
  let newG := roundAmount (label P) "g" (nmul (or0 (amount_g P)) factor) in
  let f := ndiv newG (nmax (Fin 1) (or0 (amount_g P))) in
  let P := set_amount_g newG P in
  let P := set_protein_g (nmul (or0 (protein_g P)) f) P in
  set_calories_kcal (nmul (or0 (calories_kcal P)) f) P.

Definition protein_factor (proteinTarget protNow : num) : num :=
  nmax (Fin 0) (ndiv proteinTarget (nmax (Fin 1) protNow)).

Definition scaleProteinToTarget (ings : list loc) (proteinTarget : num)
  : M (list loc) :=
  out <- cloneDeep ings ;;
  protItems <- filterA isProtein out ;;
  others <- filterA (fun i => negb (isProtein i)) out ;;
  protNow <- sumA protItems (fun i => or0 (protein_g i)) ;;
  if (length protItems =? 0)%nat || negb (isFinite proteinTarget) then ret out
  else
    let factor := protein_factor proteinTarget protNow in
    _ <- forEach (modify (scale_protein_item factor)) protItems ;;
    sort_idx (protItems ++ others).

(** The body of the [forEach] of [scaleCarbFatToCalories]. *)
Definition scale_calorie_item (factor : num) (i : Ingredient) : Ingredient :=
  let newG := roundAmount (label i) "g" (nmul (or0 (amount_g i)) factor) in
  let f := ndiv newG (nmax (Fin 1) (or0 (amount_g i))) in
  let i := set_amount_g newG i in
  let i := set_protein_g (nmul (or0 (protein_g i)) f) i in
  let i := set_calories_kcal (nmul (or0 (calories_kcal i)) f) i in
  let perCup := guessGPerCup (label i) in
  set_amount_cups (roundAmount (label i) "cups" (ndiv newG perCup)) i.

(** [targetK]: the calories left for the scalable group. *)
Definition residual_target (caloriesTarget fixedK : num) : num :=
  nmax (Fin 0) (nsub (num_or caloriesTarget (Fin 0)) fixedK).

Definition scaleCarbFatToCalories (ings : list loc) (caloriesTarget : num)
  : M (list loc) :=
  out <- cloneDeep ings ;;
  nonScaling <- filterA isNonScaling out ;;
  cfItems <- filterA (fun i => negb (isNonScaling i)) out ;;
  kcalNow <- sumA cfItems (fun i => or0 (calories_kcal i)) ;;
  fixedK <- sumA nonScaling (fun i => or0 (calories_kcal i)) ;;
  let targetK := residual_target caloriesTarget fixedK in
  if nle kcalNow (Fin 0) || nle targetK (Fin 0) then ret out
  else
    let factor := ndiv targetK kcalNow in
    _ <- forEach (modify (scale_calorie_item factor)) cfItems ;;
    sort_idx (cfItems ++ nonScaling).

Module Recipe.
(** The recipe object handed to the scaler.  [id] and [base_serving]
    are only passed through and are kept as opaque text. *)
Record t : Type := mk {
  id : option string;
  name : option string;
  instructions : option string;
  base_serving : option string;
  ingredients : option (list loc)
}.

(** The [recipe] object of the result. *)
Record out : Type := mkOut {
  out_id : option string;
  out_name : option string;
  out_instructions : string;
  out_base_serving : option string
}.
End Recipe.

Module Finalized.
Record t : Type := mk {
  recipe : Recipe.out;
  ingredients : list loc;
  totals : Totals.t
}.
End Finalized.

(** The candidate tests of the two [findIndex] calls of [finalizeRecipe]. *)
Definition nudge_candidate (i : Ingredient) : bool :=
  isCarbFat i && ngt (or0 (calories_kcal i)) (Fin 0)
  && truthy (or0 (amount_g i)).

Definition nudge_fallback (i : Ingredient) : bool :=
  truthy (or0 (amount_g i)) && ngt (or0 (calories_kcal i)) (Fin 0).

(** The assignments to the nudged ingredient. *)
Definition nudge_item (diff calPerG : num) (it : Ingredient) : Ingredient :=
  let dg := ndiv diff calPerG in
  let newG := roundAmount (label it) "g" (nadd (or0 (amount_g it)) dg) in
  let f := ndiv newG (nmax (Fin 1) (or0 (amount_g it))) in
  let it := set_amount_g newG it in
  let perCup := num_or (guessGPerCup (label it)) (Fin 240) in
  let it := set_amount_cups (roundAmount (label it) "cups" (ndiv newG perCup))
                            it in
  let it := set_calories_kcal (nmul (or0 (calories_kcal it)) f) it in
  set_protein_g (nmul (or0 (protein_g it)) f) it.

Definition finalizeRecipe (recipe : option Recipe.t) (ings : list loc)
  (caloriesTarget : num) : M Finalized.t :=
  finalized <- cloneDeep ings ;;
  totals0 <- computeTotalsA finalized ;;
  totals <-
    (if isFinite caloriesTarget then
       let diff :=
         nround (nsub caloriesTarget
                      (num_or (Totals.calories_kcal totals0) (Fin 0))) in
       if ngt (nabs diff) (Fin 5) then
         idx0 <- findIndexA nudge_candidate finalized ;;
         idx <- (if idx0 =? -1 then findIndexA nudge_fallback finalized
                 else ret idx0) ;;
         if negb (idx =? -1) then
           match finalized !! Z.to_nat idx with
           | Some itl =>
               it <- (fun h => (rd h itl, h)) ;;
               let calPerG :=
                 ndiv (or0 (calories_kcal it))
                      (nmax (Fin 1) (or0 (amount_g it))) in
               if ngt calPerG (Fin 0) then
                 _ <- modify (nudge_item diff calPerG) itl ;;
                 computeTotalsA finalized
               else ret totals0
           | None => ret totals0
           end
         else ret totals0
       else ret totals0
     else ret totals0) ;;
  ret (Finalized.mk
         (Recipe.mkOut (recipe ≫= Recipe.id) (recipe ≫= Recipe.name)
                       (default "" (recipe ≫= Recipe.instructions))
                       (recipe ≫= Recipe.base_serving))
         finalized totals).

(** ** Exported API *)

(** The shapes accepted for [baseIngredients]. *)
Inductive BaseIngredients : Type :=
| BaseArray (arr : list loc)
| BaseObject (ingredients : option (list loc))
| BaseOther.

Module Result.
Record t : Type := mk {
  recipe : Recipe.out;
  ingredients : list loc;
  totals : Totals.t;
  scaled_serving : Totals.t
}.
End Result.

Definition rawList_of (recipe : option Recipe.t)
  (baseIngredients : BaseIngredients) : list loc :=
  match baseIngredients with
  | BaseArray arr => arr
  | BaseObject (Some arr) => arr
  | _ => match recipe ≫= Recipe.ingredients with
         | Some arr => arr
         | None => []
         end
  end.

(** [rawList.map((i,idx) => ({ ...i, _idx: idx }))]: a fresh shallow
    copy of every object, tagged with its position. *)
Definition index_all (rawList : list loc) : M (list loc) :=
  fun h => (seq (length h) (length rawList),
            h ++ imap (fun idx l => set__idx (Z.of_nat idx) (rd h l)) rawList).

Definition scaleRecipeForPaths_FixedProtein (recipe : option Recipe.t)
  (baseIngredients : BaseIngredients)
  (perMealProteinTarget perMealCalorieTarget : num) : M Result.t :=
  let rawList := rawList_of recipe baseIngredients in
  indexed <- index_all rawList ;;
  step1 <- scaleProteinToTarget indexed perMealProteinTarget ;;
  step2 <- scaleCarbFatToCalories step1 perMealCalorieTarget ;;
  fin <- finalizeRecipe recipe step2 perMealCalorieTarget ;;
  ret (Result.mk (Finalized.recipe fin) (Finalized.ingredients fin)
                 (Finalized.totals fin)
                 (Totals.mk (Totals.calories_kcal (Finalized.totals fin))
                            (Totals.protein_g (Finalized.totals fin)))).

(** * Weekly plan (meal-plan.js)

    The recipes handed to [buildWeeklyPlanFromScaled] are only read, so
    they are plain values here.  [variants] is a JavaScript object used
    as a map from path name to the result of the scaler; of that result
    only [scaled_serving] is read. *)

Module Serving.
Record t : Type := mk { calories_kcal : option num; protein_g : option num }.
End Serving.

Module Variant.
Record t : Type := mk { scaled_serving : option Serving.t }.
End Variant.

Module Scaled.
Record t : Type := mk {
  name : option string;
  meal_type : option string;
  variants : option (gmap string Variant.t)
}.
End Scaled.

Module Split.
Record t : Type := mk { B : list Scaled.t; S : list Scaled.t; D : list Scaled.t }.
End Split.

Module Meal.
Record t : Type := mk {
  name : string;
  meal_type : string;
  calories_kcal : option num;
  protein_g : num
}.
End Meal.

Module Day.
Record t : Type := mk { day : Z; meals : list Meal.t }.
End Day.

(** [(r.meal_type||'').toLowerCase()] *)
Definition meal_type_of (r : Scaled.t) : string :=
  toLowerCase (str_or (Scaled.meal_type r) "").

Definition splitByType (recipes : list Scaled.t) : Split.t :=
  fold_left
    (fun acc r =>
       let t := meal_type_of r in
       if String.eqb t "breakfast"
       then Split.mk (Split.B acc ++ [r]) (Split.S acc) (Split.D acc)
       else if String.eqb t "snack" || String.eqb t "snacks"
       then Split.mk (Split.B acc) (Split.S acc ++ [r]) (Split.D acc)
       else if String.eqb t "dinner"
       then Split.mk (Split.B acc) (Split.S acc) (Split.D acc ++ [r])
       else acc)
    recipes (Split.mk [] [] []).

(** [v && v.scaled_serving] for [v = r.variants?.[activePath]]. *)
Definition variant_serving (r : Scaled.t) (activePath : string)
  : option Serving.t :=
  (Scaled.variants r ≫= (fun m => m !! activePath))
    ≫= Variant.scaled_serving.

(** A template string ending in [${r.name}]. *)
Definition with_name (prefix : string) (r : Scaled.t) : string :=
  prefix ++ default "undefined" (Scaled.name r).

(** [String(mealsPerDay)==='4'] for a number. *)
Definition is_four (mealsPerDay : num) : bool :=
  match mealsPerDay with
  | Fin q => Qeq_bool q 4
  | _ => false
  end.

(** The body of the loop over the days: the meals of day [day]
    (counted from 0), pushed in this order. *)
Definition day_meals (B S D : list Scaled.t) (mealsPerDay : num)
  (activePath : string) (proteinPerMeal : num) (day : nat) : list Meal.t :=
  let meals := [] in
  let meals :=
    if negb (length B =? 0)%nat then
      match B !! (day mod length B)%nat with
      | Some r =>
          match variant_serving r activePath with
          | Some ss =>
              meals ++ [Meal.mk (with_name "Breakfast — " r) "breakfast"
                                (Serving.calories_kcal ss) proteinPerMeal]
          | None => meals
          end
      | None => meals
      end
    else meals in
  let meals :=
    if negb (length D =? 0)%nat then
      match D !! ((day + 6) mod length D)%nat with
      | Some rLunch =>
          match variant_serving rLunch activePath with
          | Some vL =>
              meals ++ [Meal.mk "Lunch — leftovers from previous day's dinner"
                                "lunch" (Serving.calories_kcal vL)
                                proteinPerMeal]
          | None => meals
          end
      | None => meals
      end
    else meals in
  let meals :=
    if is_four mealsPerDay && negb (length S =? 0)%nat then
      match S !! (day mod length S)%nat with
      | Some rS =>
          match variant_serving rS activePath with
          | Some vS =>
              meals ++ [Meal.mk (with_name "Snack — " rS) "snack"
                                (Serving.calories_kcal vS) proteinPerMeal]
          | None => meals
          end
      | None => meals
      end
    else meals in
  if negb (length D =? 0)%nat then
    match D !! (day mod length D)%nat with
    | Some rD =>
        match variant_serving rD activePath with
        | Some vD =>
            meals ++ [Meal.mk (with_name "Dinner — " rD) "dinner"
                              (Serving.calories_kcal vD) proteinPerMeal]
        | None => meals
        end
    | None => meals
    end
  else meals.

Definition buildWeeklyPlanFromScaled (scaledRecipes : list Scaled.t)
  (mealsPerDay : num) (activePath : string) (proteinPerMeal : num)
  : list Day.t :=
  let s := splitByType scaledRecipes in
  map (fun day =>
         Day.mk (Z.of_nat day + 1)
                (day_meals (Split.B s) (Split.S s) (Split.D s) mealsPerDay
                           activePath proteinPerMeal day))
      (seq 0 7).

(** * Notions used in the statements *)



(** An ingredient used in examples. *)
Definition sample (name : string) (amount calories protein : Q) : Ingredient :=
  mkIngredient (Some name) None None (Some (Fin amount)) None
               (Some (Fin calories)) (Some (Fin protein)) None.

(** The object survives [cloneDeep] as it is: its numbers are finite. *)
Definition json_clean (i : Ingredient) : Prop := clone_object i = i.

(** The whole number of grams the mass mode of the rounder lands on. *)
Definition mass_grid (q : Q) : Z :=
  let v := if Qle_bool 0 q then q else 0%Q in
  if Qle_bool v 20 then Qround_half_up v
  else if Qle_bool v 150 then Qround_half_up (v / 5) * 5
  else Qround_half_up (v / 10) * 10.


(** [diff] and [calPerG] of [finalizeRecipe]. *)
Definition nudge_diff (vs : list Ingredient) (caloriesTarget : num) : num :=
  nround (nsub caloriesTarget
               (num_or (Totals.calories_kcal (computeTotals vs)) (Fin 0))).

Definition calPerG_of (it : Ingredient) : num :=
  ndiv (or0 (calories_kcal it)) (nmax (Fin 1) (or0 (amount_g it))).

(** [v], at position [k], is the ingredient the nudge goes to: the
    first carb/fat candidate, or without any the first fallback. *)
Definition nudge_choice (vs : list Ingredient) (k : nat) (v : Ingredient)
  : Prop :=
  vs !! k = Some v /\
  ((nudge_candidate v = true /\
    forall j y, (j < k)%nat -> vs !! j = Some y -> nudge_candidate y = false)
   \/ (Forall (fun y => nudge_candidate y = false) vs /\
       nudge_fallback v = true /\
       forall j y, (j < k)%nat -> vs !! j = Some y ->
                   nudge_fallback y = false)).

(** The name, label and tags of two ingredients differ at most in the
    case of ASCII letters. *)
Definition same_text_up_to_case (i j : Ingredient) : Prop :=
  option_map toLowerCase (name i) = option_map toLowerCase (name j) /\
  option_map toLowerCase (ingredient i)
  = option_map toLowerCase (ingredient j) /\
  option_map (map toLowerCase) (tags i)
  = option_map (map toLowerCase) (tags j).

(** The tests of [splitByType] on one recipe. *)
Definition is_breakfast (r : Scaled.t) : bool :=
  String.eqb (meal_type_of r) "breakfast".
Definition is_snack (r : Scaled.t) : bool :=
  String.eqb (meal_type_of r) "snack" || String.eqb (meal_type_of r) "snacks".
Definition is_dinner (r : Scaled.t) : bool :=
  String.eqb (meal_type_of r) "dinner".

(** One of the four blocks of the loop body of
    [buildWeeklyPlanFromScaled]: the meal the bucket [X] gives for the
    index [idx], if the recipe in turn has a serving for the path. *)
Definition slot (X : list Scaled.t) (idx : nat) (activePath : string)
  (meal : Scaled.t -> Serving.t -> Meal.t) : list Meal.t :=
  match X !! (idx mod length X)%nat with
  | Some r => match variant_serving r activePath with
              | Some ss => [meal r ss]
              | None => []
              end
  | None => []
  end.

(** The meal objects pushed by the four blocks. *)
Definition breakfast_meal (proteinPerMeal : num) (r : Scaled.t)
  (ss : Serving.t) : Meal.t :=
  Meal.mk (with_name "Breakfast — " r) "breakfast" (Serving.calories_kcal ss)
          proteinPerMeal.
Definition lunch_meal (proteinPerMeal : num) (r : Scaled.t)
  (ss : Serving.t) : Meal.t :=
  Meal.mk "Lunch — leftovers from previous day's dinner" "lunch"
          (Serving.calories_kcal ss) proteinPerMeal.
Definition snack_meal (proteinPerMeal : num) (r : Scaled.t)
  (ss : Serving.t) : Meal.t :=
  Meal.mk (with_name "Snack — " r) "snack" (Serving.calories_kcal ss)
          proteinPerMeal.
Definition dinner_meal (proteinPerMeal : num) (r : Scaled.t)
  (ss : Serving.t) : Meal.t :=
  Meal.mk (with_name "Dinner — " r) "dinner" (Serving.calories_kcal ss)
          proteinPerMeal.

(** The calories a recipe offers on a path, if it has a serving there. *)
Definition path_calories (activePath : string) (r : Scaled.t)
  : option (option num) :=
  Serving.calories_kcal <$> variant_serving r activePath.

(** The meals of one type in a day. *)
Definition meals_of_type (type : string) (d : Day.t) : list Meal.t :=
  List.filter (fun m => String.eqb (Meal.meal_type m) type) (Day.meals d).

(** The order of [sort_by]. *)
Definition key_le {A} (key : A -> Z) (x y : A) : Prop := key x <= key y.

(** ** Views of a stage used to state its properties *)

(** The contents of the deep copy a stage starts from. *)
Definition stage_copy (h : heap) (ings : list loc) : list Ingredient :=
  map (fun l => clone_object (rd h l)) ings.

(** What identifies an ingredient through the pipeline. *)
Definition identity_of (i : Ingredient) :
  option string * option string * option (list string) :=
  (name i, ingredient i, tags i).

(** The fields no stage writes. *)
Definition stable_part (i : Ingredient) :
  option string * option string * option (list string) * option Z :=
  (identity_of i, _idx i).

(** Every object of the list carries its position as stable index. *)
Definition tagged (vs : list Ingredient) : Prop :=
  forall k v, vs !! k = Some v -> _idx v = Some (Z.of_nat k).

(** The objects built by [index_all]. *)
Definition indexed_values (h : heap) (rawList : list loc) : list Ingredient :=
  imap (fun idx l => set__idx (Z.of_nat idx) (rd h l)) rawList.

(** [protNow] of [scaleProteinToTarget]. *)
Definition protein_now (vs : list Ingredient) : num :=
  sum (List.filter isProtein vs) (fun i => or0 (protein_g i)).

(** The early return of [scaleProteinToTarget] is taken. *)
Definition protein_noop (vs : list Ingredient) (proteinTarget : num) : bool :=
  (length (List.filter isProtein vs) =? 0)%nat || negb (isFinite proteinTarget).

(** The objects of the copy after [scaleProteinToTarget]. *)
Definition protein_values (vs : list Ingredient) (proteinTarget : num)
  : list Ingredient :=
  if protein_noop vs proteinTarget then vs
  else map (fun v => if isProtein v
                     then scale_protein_item
                            (protein_factor proteinTarget (protein_now vs)) v
                     else v) vs.

Definition scalable (i : Ingredient) : bool := negb (isNonScaling i).

(** [kcalNow] and [fixedK] of [scaleCarbFatToCalories]. *)
Definition kcal_now (vs : list Ingredient) : num :=
  sum (List.filter scalable vs) (fun i => or0 (calories_kcal i)).

Definition fixed_kcal (vs : list Ingredient) : num :=
  sum (List.filter isNonScaling vs) (fun i => or0 (calories_kcal i)).

(** The early return of [scaleCarbFatToCalories] is taken. *)
Definition calorie_noop (vs : list Ingredient) (caloriesTarget : num) : bool :=
  nle (kcal_now vs) (Fin 0)
  || nle (residual_target caloriesTarget (fixed_kcal vs)) (Fin 0).

(** [factor] of [scaleCarbFatToCalories]. *)
Definition calorie_factor (vs : list Ingredient) (caloriesTarget : num) : num :=
  ndiv (residual_target caloriesTarget (fixed_kcal vs)) (kcal_now vs).

(** The objects of the copy after [scaleCarbFatToCalories]. *)
Definition calorie_values (vs : list Ingredient) (caloriesTarget : num)
  : list Ingredient :=
  if calorie_noop vs caloriesTarget then vs
  else map (fun v => if scalable v
                     then scale_calorie_item (calorie_factor vs caloriesTarget) v
                     else v) vs.

(** * Properties *)

(** ** Stable sort by an integer key *)

Section SortFacts.
Context {A : Type} (key : A -> Z).

Local Abbreviation R := (key_le key).

Lemma insert_by_Permutation x l : insert_by key x l ≡ₚ x :: l.
Proof.
  induction l as [|y r IH]; simpl; [done|].
  destruct (key x <=? key y); [done|].
  rewrite IH. apply Permutation_swap.
Qed.

Lemma sort_by_Permutation l : sort_by key l ≡ₚ l.
Proof.
  induction l as [|x r IH]; simpl; [done|].
  unfold sort_by in *. simpl. by rewrite insert_by_Permutation, IH.
Qed.

Lemma insert_by_Sorted x l : Sorted R l -> Sorted R (insert_by key x l).
Proof.
  induction 1 as [|y r Hr IH Hy]; simpl.
  - repeat constructor.
  - destruct (Z.leb_spec (key x) (key y)) as [Hle|Hlt].
    + constructor; [by constructor|]. by constructor.
    + constructor; [done|].
      destruct r as [|z r']; simpl.
      * constructor. unfold key_le. lia.
      * destruct (key x <=? key z).
        -- constructor. unfold key_le. lia.
        -- constructor. by inversion Hy.
Qed.

Lemma sort_by_Sorted l : Sorted R (sort_by key l).
Proof.
  induction l as [|x r IH]; [constructor|].
  unfold sort_by in *. simpl. by apply insert_by_Sorted.
Qed.

(** A list whose keys increase strictly along the list is what
    sorting any of its rearrangements returns. *)
Lemma sort_by_restore (l l' : list A) :
  (forall i j x y, l !! i = Some x -> l !! j = Some y ->
                   (i < j)%nat -> key x < key y) ->
  l' ≡ₚ l -> sort_by key l' = l.
Proof.
  intros Hinc Hperm.
  assert (Htr : Transitive R) by (intros x y z; unfold key_le; lia).
  apply (Sorted_unique_strong R).
  - intros x1 x2 H1 H2 H12 H21.
    rewrite sort_by_Permutation, Hperm in H1.
    apply list_elem_of_lookup in H1 as [i Hi].
    apply list_elem_of_lookup in H2 as [j Hj].
    destruct (lt_eq_lt_dec i j) as [[Hlt|Heq]|Hgt].
    + specialize (Hinc _ _ _ _ Hi Hj Hlt). unfold key_le in *. lia.
    + subst. congruence.
    + specialize (Hinc _ _ _ _ Hj Hi Hgt). unfold key_le in *. lia.
  - apply sort_by_Sorted.
  - clear Hperm. induction l as [|x r IH]; [constructor|].
    constructor.
    + apply IH. intros i j a b Hi Hj Hij.
      apply (Hinc (S i) (S j) a b); simpl; [done|done|lia].
    + destruct r as [|y r']; constructor.
      unfold R. specialize (Hinc 0%nat 1%nat x y eq_refl eq_refl).
      lia.
  - by rewrite sort_by_Permutation.
Qed.
End SortFacts.

Lemma filter_partition_Permutation {A} (p : A -> bool) (l : list A) :
  List.filter p l ++ List.filter (fun x => negb (p x)) l ≡ₚ l.
Proof.
  induction l as [|x r IH]; simpl; [done|].
  destruct (p x); simpl.
  - by rewrite IH.
  - rewrite <- Permutation_middle. by rewrite IH.
Qed.

(** ** The heap: reads, writes and fresh blocks *)

Lemma rd_lookup (h : heap) l v : h !! l = Some v -> rd h l = v.
Proof. unfold rd. by intros ->. Qed.

Lemma rd_app_l (h h' : heap) l : (l < length h)%nat -> rd (h ++ h') l = rd h l.
Proof. intros Hl. unfold rd. by rewrite lookup_app_l. Qed.

Lemma rd_app_r (h h' : heap) k :
  rd (h ++ h') (length h + k) = default empty_object (h' !! k).
Proof.
  unfold rd. rewrite lookup_app_r by lia.
  by replace (length h + k - length h)%nat with k by lia.
Qed.

Lemma map_rd_fresh (h vs : heap) :
  map (rd (h ++ vs)) (seq (length h) (length vs)) = vs.
Proof.
  apply list_eq. intros i.
  change (map ?f ?l) with (f <$> l). rewrite list_lookup_fmap.
  destruct (decide (i < length vs)%nat) as [Hi|Hi].
  - rewrite lookup_seq_lt by done. simpl. rewrite rd_app_r.
    destruct (lookup_lt_is_Some_2 vs i Hi) as [v Hv]. by rewrite Hv.
  - rewrite lookup_seq_ge by lia. simpl. symmetry.
    apply lookup_ge_None. lia.
Qed.

Lemma forEach_modify_lookup f ls :
  NoDup ls -> forall (h : heap) l,
  (forEach (modify f) ls h).2 !! l =
  if bool_decide (l ∈ ls) then f <$> h !! l else h !! l.
Proof.
  induction 1 as [|x r Hx Hr IH]; intros h l; simpl; [done|].
  unfold bind, modify at 1. simpl. rewrite IH.
  destruct (decide (l = x)) as [->|Hne].
  - rewrite (bool_decide_eq_false_2 (x ∈ r)) by done.
    rewrite (bool_decide_eq_true_2 (x ∈ x :: r)) by left.
    destruct (decide (x < length h)%nat) as [Hlt|Hge].
    + rewrite list_lookup_insert_eq by done.
      destruct (lookup_lt_is_Some_2 h x Hlt) as [v Hv].
      by rewrite Hv, (rd_lookup _ _ _ Hv).
    + rewrite list_insert_ge by lia.
      by rewrite (proj2 (lookup_ge_None h x)) by lia.
  - rewrite list_lookup_insert_ne by done.
    destruct (decide (l ∈ r)) as [Hin|Hnin].
    + rewrite (bool_decide_eq_true_2 (l ∈ r)) by done.
      by rewrite (bool_decide_eq_true_2 (l ∈ x :: r)) by (by right).
    + rewrite (bool_decide_eq_false_2 (l ∈ r)) by done.
      rewrite (bool_decide_eq_false_2 (l ∈ x :: r)); [done|].
      rewrite elem_of_cons. intros [?|?]; done.
Qed.

(** Mutating, in a block of fresh objects, those that satisfy [p]. *)
Lemma forEach_modify_block f (p : Ingredient -> bool) (h vs : heap) :
  (forEach (modify f)
     (List.filter (fun l => p (rd (h ++ vs) l)) (seq (length h) (length vs)))
     (h ++ vs)).2
  = h ++ map (fun v => if p v then f v else v) vs.
Proof.
  apply list_eq. intros i.
  rewrite forEach_modify_lookup
    by (apply NoDup_ListNoDup, List.NoDup_filter, NoDup_ListNoDup, NoDup_seq).
  destruct (decide (i < length h)%nat) as [Hlt|Hge].
  - rewrite bool_decide_eq_false_2.
    + by rewrite !lookup_app_l.
    + rewrite list_elem_of_In, filter_In, in_seq. lia.
  - replace i with (length h + (i - length h))%nat by lia.
    set (k := (i - length h)%nat).
    rewrite !lookup_app_r by lia.
    replace (length h + k - length h)%nat with k by lia.
    change (map ?g vs) with (g <$> vs). rewrite list_lookup_fmap.
    destruct (vs !! k) as [v|] eqn:Hv.
    + assert (Hk : (k < length vs)%nat) by (by eapply lookup_lt_Some).
      assert (Hrd : rd (h ++ vs) (length h + k) = v).
      { rewrite rd_app_r. by rewrite Hv. }
      simpl. destruct (p v) eqn:Hp.
      * rewrite bool_decide_eq_true_2; [done|].
        rewrite list_elem_of_In, filter_In, in_seq, Hrd. split; [lia|done].
      * rewrite bool_decide_eq_false_2; [done|].
        rewrite list_elem_of_In, filter_In, Hrd, Hp. intros [_ ?]; done.
    + by destruct (bool_decide _).
Qed.

Lemma map_filter_comm {A B} (f : A -> B) (p : B -> bool) (l : list A) :
  map f (List.filter (fun x => p (f x)) l) = List.filter p (map f l).
Proof.
  induction l as [|x r IH]; simpl; [done|].
  destruct (p (f x)); simpl; by rewrite IH.
Qed.

Lemma map_rd_filter_fresh (p : Ingredient -> bool) (h vs : heap) :
  map (rd (h ++ vs))
      (List.filter (fun l => p (rd (h ++ vs) l)) (seq (length h) (length vs)))
  = List.filter p vs.
Proof. by rewrite (map_filter_comm (rd (h ++ vs)) p), map_rd_fresh. Qed.

Lemma stage_copy_length h ings : length (stage_copy h ings) = length ings.
Proof. apply length_map. Qed.

(** ** Stable indices *)

Lemma tagged_map (f : Ingredient -> Ingredient) vs :
  (forall v, _idx (f v) = _idx v) -> tagged vs -> tagged (map f vs).
Proof.
  intros Hf Hvs k v. change (map f vs) with (f <$> vs).
  rewrite list_lookup_fmap. destruct (vs !! k) as [w|] eqn:Hw; [|done].
  simpl. intros [= <-]. rewrite Hf. by apply Hvs.
Qed.

(** Sorting a rearrangement of a block of tagged objects by stable
    index restores the block. *)
Lemma sort_tagged_block (h vs : heap) (l' : list loc) :
  tagged vs -> l' ≡ₚ seq (length h) (length vs) ->
  sort_by (fun l => idx_or0 (rd (h ++ vs) l)) l' = seq (length h) (length vs).
Proof.
  intros Htag Hperm. apply sort_by_restore; [|done].
  intros i j x y Hi Hj Hij.
  apply lookup_seq in Hi as [-> Hi]. apply lookup_seq in Hj as [-> Hj].
  rewrite !rd_app_r.
  destruct (lookup_lt_is_Some_2 vs i Hi) as [v Hv].
  destruct (lookup_lt_is_Some_2 vs j Hj) as [w Hw].
  rewrite Hv, Hw. simpl. unfold idx_or0.
  rewrite (Htag _ _ Hv), (Htag _ _ Hw). simpl. lia.
Qed.

Lemma length_filter_fresh (p : Ingredient -> bool) (h vs : heap) :
  length (List.filter (fun l => p (rd (h ++ vs) l))
                      (seq (length h) (length vs)))
  = length (List.filter p vs).
Proof. by rewrite <- (map_rd_filter_fresh p h vs), length_map. Qed.

(** ** The stages as functions on the contents of their copy *)

Lemma scaleProteinToTarget_spec ings t h :
  let vs := stage_copy h ings in
  exists res,
    scaleProteinToTarget ings t h = (res, h ++ protein_values vs t) /\
    res ≡ₚ seq (length h) (length ings) /\
    (tagged vs -> res = seq (length h) (length ings)).
Proof.
  intros vs.
  unfold scaleProteinToTarget, bind, cloneDeep, filterA, sumA, read_all, ret,
    bind.
  cbv beta iota zeta. fold (stage_copy h ings). fold vs.
  replace (length ings) with (length vs) by apply stage_copy_length.
  rewrite (length_filter_fresh isProtein), (map_rd_filter_fresh isProtein).
  unfold protein_values, protein_noop. fold (protein_now vs).
  destruct ((length (List.filter isProtein vs) =? 0)%nat || negb (isFinite t)).
  - eexists. split; [reflexivity|]. split; [done|done].
  - rewrite (surjective_pairing (forEach _ _ _)).
    rewrite forEach_modify_block. unfold sort_idx.
    eexists. split; [reflexivity|]. split.
    + rewrite sort_by_Permutation.
      apply (filter_partition_Permutation (fun l => isProtein (rd (h ++ vs) l))).
    + intros Htag.
      set (vs' := map _ vs).
      replace (length vs) with (length vs') by apply length_map.
      apply sort_tagged_block.
      * apply tagged_map; [|done]. intros v. by destruct (isProtein v).
      * unfold vs'. rewrite length_map.
        apply (filter_partition_Permutation
                 (fun l => isProtein (rd (h ++ vs) l))).
Qed.

Lemma scaleCarbFatToCalories_spec ings ct h :
  let vs := stage_copy h ings in
  exists res,
    scaleCarbFatToCalories ings ct h = (res, h ++ calorie_values vs ct) /\
    res ≡ₚ seq (length h) (length ings) /\
    (tagged vs -> res = seq (length h) (length ings)).
Proof.
  intros vs.
  unfold scaleCarbFatToCalories, bind, cloneDeep, filterA, sumA, read_all, ret,
    bind.
  cbv beta iota zeta. fold (stage_copy h ings). fold vs.
  replace (length ings) with (length vs) by apply stage_copy_length.
  change (fun l => negb (isNonScaling (rd (h ++ vs) l)))
    with (fun l => scalable (rd (h ++ vs) l)).
  rewrite (map_rd_filter_fresh scalable), (map_rd_filter_fresh isNonScaling).
  unfold calorie_values, calorie_noop, calorie_factor.
  fold (kcal_now vs). fold (fixed_kcal vs).
  assert (Hperm :
    List.filter (fun l => scalable (rd (h ++ vs) l))
                (seq (length h) (length vs)) ++
    List.filter (fun l => isNonScaling (rd (h ++ vs) l))
                (seq (length h) (length vs))
    ≡ₚ seq (length h) (length vs)).
  { rewrite Permutation_app_comm.
    apply (filter_partition_Permutation
             (fun l => isNonScaling (rd (h ++ vs) l))). }
  destruct (nle (kcal_now vs) (Fin 0)
            || nle (residual_target ct (fixed_kcal vs)) (Fin 0)).
  - eexists. split; [reflexivity|]. split; [done|done].
  - rewrite (surjective_pairing (forEach _ _ _)).
    rewrite forEach_modify_block. unfold sort_idx.
    eexists. split; [reflexivity|]. split.
    + by rewrite sort_by_Permutation.
    + intros Htag.
      set (vs' := map _ vs).
      replace (length vs) with (length vs') in * by apply length_map.
      apply sort_tagged_block; [|done].
      apply tagged_map; [|done]. intros v. by destruct (scalable v).
Qed.

Lemma stable_part_nudge_item d c v :
  stable_part (nudge_item d c v) = stable_part v.
Proof. reflexivity. Qed.

Lemma finalizeRecipe_spec recipe ings ct h :
  let vs := stage_copy h ings in
  exists fin vs',
    finalizeRecipe recipe ings ct h = (fin, h ++ vs') /\
    Finalized.ingredients fin = seq (length h) (length ings) /\
    map stable_part vs' = map stable_part vs /\
    (ngt (nabs (nround (nsub ct (num_or (Totals.calories_kcal
                                           (computeTotals vs)) (Fin 0)))))
         (Fin 5) = false ->
     vs' = vs /\ Finalized.totals fin = computeTotals vs).
Proof.
  intros vs.
  unfold finalizeRecipe, computeTotalsA, findIndexA, bind, cloneDeep, read_all,
    ret, bind.
  cbv beta iota zeta. fold (stage_copy h ings). fold vs.
  replace (length ings) with (length vs) by apply stage_copy_length.
  rewrite map_rd_fresh.
  destruct (isFinite ct); cbv beta iota;
    [|by eexists _, vs].
  destruct (ngt _ (Fin 5)) eqn:Hgt; cbv beta iota;
    [|by eexists _, vs].
  set (a := if _ =? -1 then _ else _).
  assert (Ha : exists z, a (h ++ vs) = (z, h ++ vs)).
  { unfold a. destruct (_ =? -1); by eexists. }
  destruct Ha as [z ->]. clear a.
  destruct (negb (z =? -1)); [|by eexists _, vs].
  destruct (seq _ _ !! Z.to_nat z) as [itl|] eqn:Hit; [|by eexists _, vs].
  cbv beta iota.
  destruct (ngt _ (Fin 0)); [|by eexists _, vs].
  unfold modify. cbv beta iota.
  apply lookup_seq in Hit as [-> Hk].
  rewrite insert_app_r.
  eexists _, _. split; [reflexivity|]. split; [done|]. split; [|done].
  change (map stable_part ?l) with (stable_part <$> l).
  rewrite list_fmap_insert, stable_part_nudge_item.
  apply list_insert_id. rewrite list_lookup_fmap.
  destruct (lookup_lt_is_Some_2 vs _ Hk) as [v Hv].
  rewrite rd_app_r, Hv. done.
Qed.

(** ** Fresh blocks through the pipeline *)

Lemma stage_copy_fresh (h vs : heap) :
  stage_copy (h ++ vs) (seq (length h) (length vs)) = map clone_object vs.
Proof.
  unfold stage_copy.
  rewrite <- (map_map (rd (h ++ vs)) clone_object). by rewrite map_rd_fresh.
Qed.

Lemma stable_part_protein_values vs t :
  map stable_part (protein_values vs t) = map stable_part vs.
Proof.
  unfold protein_values. destruct (protein_noop vs t); [done|].
  rewrite map_map. apply map_ext. intros v. by destruct (isProtein v).
Qed.

Lemma stable_part_calorie_values vs t :
  map stable_part (calorie_values vs t) = map stable_part vs.
Proof.
  unfold calorie_values. destruct (calorie_noop vs t); [done|].
  rewrite map_map. apply map_ext. intros v. by destruct (scalable v).
Qed.

Lemma stable_part_clone vs :
  map stable_part (map clone_object vs) = map stable_part vs.
Proof. rewrite map_map. by apply map_ext. Qed.

Lemma stable_part_length vs vs' :
  map stable_part vs' = map stable_part vs -> length vs' = length vs.
Proof. intros H. by rewrite <- (length_map stable_part vs'), H, length_map. Qed.

Lemma tagged_stable vs vs' :
  map stable_part vs' = map stable_part vs -> tagged vs -> tagged vs'.
Proof.
  intros Heq Htag k v' Hv'.
  assert (Hs : (stable_part <$> vs') !! k = Some (stable_part v')).
  { by rewrite list_lookup_fmap, Hv'. }
  change (stable_part <$> vs') with (map stable_part vs') in Hs.
  rewrite Heq in Hs. change (map stable_part vs) with (stable_part <$> vs) in Hs.
  rewrite list_lookup_fmap in Hs.
  destruct (vs !! k) as [v|] eqn:Hv; [|done].
  assert (Hidx : _idx v = _idx v')
    by (unfold stable_part in Hs; simpl in Hs; congruence).
  rewrite <- Hidx. by apply Htag.
Qed.

Lemma scaleProteinToTarget_fresh (h vs : heap) t :
  tagged vs ->
  scaleProteinToTarget (seq (length h) (length vs)) t (h ++ vs)
  = (seq (length (h ++ vs)) (length vs),
     (h ++ vs) ++ protein_values (map clone_object vs) t).
Proof.
  intros Htag.
  destruct (scaleProteinToTarget_spec (seq (length h) (length vs)) t (h ++ vs))
    as (res & Heq & _ & Hres).
  rewrite stage_copy_fresh, length_seq in *.
  rewrite Heq, Hres; [done|].
  by apply (tagged_stable vs), Htag; rewrite stable_part_clone.
Qed.

Lemma scaleCarbFatToCalories_fresh (h vs : heap) t :
  tagged vs ->
  scaleCarbFatToCalories (seq (length h) (length vs)) t (h ++ vs)
  = (seq (length (h ++ vs)) (length vs),
     (h ++ vs) ++ calorie_values (map clone_object vs) t).
Proof.
  intros Htag.
  destruct (scaleCarbFatToCalories_spec (seq (length h) (length vs)) t (h ++ vs))
    as (res & Heq & _ & Hres).
  rewrite stage_copy_fresh, length_seq in *.
  rewrite Heq, Hres; [done|].
  by apply (tagged_stable vs), Htag; rewrite stable_part_clone.
Qed.

Lemma tagged_indexed_values h raw : tagged (indexed_values h raw).
Proof.
  intros k v. unfold indexed_values. rewrite list_lookup_imap.
  destruct (raw !! k); [|done]. simpl. by intros [= <-].
Qed.

Lemma length_indexed_values h raw : length (indexed_values h raw) = length raw.
Proof. apply length_imap. Qed.

Lemma length_protein_values vs t : length (protein_values vs t) = length vs.
Proof. apply stable_part_length, stable_part_protein_values. Qed.

Lemma length_calorie_values vs t : length (calorie_values vs t) = length vs.
Proof. apply stable_part_length, stable_part_calorie_values. Qed.

(** The run of the whole pipeline, stage by stage. *)
Lemma pipeline_trace recipe base pt ct h :
  let raw := rawList_of recipe base in
  let n := length raw in
  let ivs := indexed_values h raw in
  let v1 := protein_values (map clone_object ivs) pt in
  let v2 := calorie_values (map clone_object v1) ct in
  let h0 := h ++ ivs in
  let h1 := h0 ++ v1 in
  let h2 := h1 ++ v2 in
  index_all raw h = (seq (length h) n, h0) /\
  scaleProteinToTarget (seq (length h) n) pt h0 = (seq (length h0) n, h1) /\
  scaleCarbFatToCalories (seq (length h0) n) ct h1 = (seq (length h1) n, h2) /\
  exists fin v3,
    finalizeRecipe recipe (seq (length h1) n) ct h2 = (fin, h2 ++ v3) /\
    Finalized.ingredients fin = seq (length h2) n /\
    map stable_part v3 = map stable_part ivs /\
    scaleRecipeForPaths_FixedProtein recipe base pt ct h
    = (Result.mk (Finalized.recipe fin) (Finalized.ingredients fin)
                 (Finalized.totals fin)
                 (Totals.mk (Totals.calories_kcal (Finalized.totals fin))
                            (Totals.protein_g (Finalized.totals fin))),
       h2 ++ v3).
Proof.
  intros raw n ivs v1 v2 h0 h1 h2.
  assert (Hn0 : length ivs = n) by apply length_indexed_values.
  assert (Hs1 : map stable_part v1 = map stable_part ivs).
  { unfold v1. by rewrite stable_part_protein_values, stable_part_clone. }
  assert (Hs2 : map stable_part v2 = map stable_part ivs).
  { unfold v2. by rewrite stable_part_calorie_values, stable_part_clone. }
  assert (Hn1 : length v1 = n) by (by rewrite (stable_part_length _ _ Hs1)).
  assert (Hn2 : length v2 = n) by (by rewrite (stable_part_length _ _ Hs2)).
  assert (Ht0 : tagged ivs) by apply tagged_indexed_values.
  assert (Ht1 : tagged v1) by (by apply (tagged_stable ivs)).
  assert (Ht2 : tagged v2) by (by apply (tagged_stable ivs)).
  assert (E0 : index_all raw h = (seq (length h) n, h0)) by done.
  assert (E1 : scaleProteinToTarget (seq (length h) n) pt h0
               = (seq (length h0) n, h1)).
  { unfold h0, h1, v1. rewrite <- Hn0. by apply scaleProteinToTarget_fresh. }
  assert (E2 : scaleCarbFatToCalories (seq (length h0) n) ct h1
               = (seq (length h1) n, h2)).
  { unfold h1, h2, v2. rewrite <- Hn1. by apply scaleCarbFatToCalories_fresh. }
  split; [done|]. split; [done|]. split; [done|].
  destruct (finalizeRecipe_spec recipe (seq (length h1) n) ct h2)
    as (fin & v3 & E3 & Hing & Hs3 & _).
  exists fin, v3.
  assert (Hcopy : stage_copy h2 (seq (length h1) n) = map clone_object v2).
  { unfold h2. rewrite <- Hn2. apply stage_copy_fresh. }
  rewrite Hcopy in Hs3. rewrite length_seq in Hing.
  split; [done|]. split.
  { rewrite Hing. unfold h2. by rewrite length_app, Hn2. }
  split; [by rewrite Hs3, stable_part_clone|].
  unfold scaleRecipeForPaths_FixedProtein, bind. fold raw.
  by rewrite E0, E1, E2, E3.
Qed.

Lemma stable_part_indexed_values h raw :
  map stable_part (indexed_values h raw)
  = imap (fun k l => (identity_of (rd h l), Some (Z.of_nat k))) raw.
Proof.
  apply list_eq. intros k. unfold indexed_values.
  change (map ?f ?l) with (f <$> l).
  rewrite list_lookup_fmap, !list_lookup_imap.
  by destruct (raw !! k).
Qed.

Lemma map_rd_block (h vs : heap) n :
  length vs = n -> map (rd (h ++ vs)) (seq (length h) n) = vs.
Proof. intros <-. apply map_rd_fresh. Qed.

(** ** Frame: the objects of the caller *)

(** C9: the pipeline entry point and each of its stages leave every
    object that exists before the call as it is: the heap after the
    call is the heap before the call followed by the fresh objects of
    the deep copies.  (The recipe object is only read: it is an
    immutable argument of the embedding.) *)
Theorem caller_objects_unchanged recipe base ings pt ct (h : heap) :
  h `prefix_of` (scaleRecipeForPaths_FixedProtein recipe base pt ct h).2 /\
  h `prefix_of` (scaleProteinToTarget ings pt h).2 /\
  h `prefix_of` (scaleCarbFatToCalories ings ct h).2 /\
  h `prefix_of` (finalizeRecipe recipe ings ct h).2.
Proof.
  repeat split.
  - destruct (pipeline_trace recipe base pt ct h)
      as (_ & _ & _ & fin & v3 & _ & _ & _ & ->).
    simpl. rewrite <- !(assoc_L (++)). by eexists.
  - destruct (scaleProteinToTarget_spec ings pt h) as (res & -> & _).
    by eexists.
  - destruct (scaleCarbFatToCalories_spec ings ct h) as (res & -> & _).
    by eexists.
  - destruct (finalizeRecipe_spec recipe ings ct h) as (fin & vs' & -> & _).
    by eexists.
Qed.

(** ** Order and stable index *)

Lemma tagged_idx vs :
  tagged vs ->
  map _idx vs = map (fun k => Some (Z.of_nat k)) (seq 0 (length vs)).
Proof.
  intros Htag. apply list_eq. intros k.
  change (map ?f ?l) with (f <$> l). rewrite !list_lookup_fmap.
  destruct (vs !! k) as [v|] eqn:Hv; simpl.
  - rewrite lookup_seq_lt by (by eapply lookup_lt_Some).
    simpl. by rewrite (Htag _ _ Hv).
  - rewrite lookup_seq_ge; [done|]. by apply lookup_ge_None.
Qed.

Lemma tagged_of_idx vs :
  map _idx vs = map (fun k => Some (Z.of_nat k)) (seq 0 (length vs)) ->
  tagged vs.
Proof.
  intros Heq k v Hv.
  assert (Hk : (k < length vs)%nat) by (by eapply lookup_lt_Some).
  assert (H : (_idx <$> vs) !! k = Some (_idx v))
    by (by rewrite list_lookup_fmap, Hv).
  change (_idx <$> vs) with (map _idx vs) in H. rewrite Heq in H.
  change (map ?f ?x) with (f <$> x) in H.
  rewrite list_lookup_fmap, lookup_seq_lt in H by done.
  simpl in H. by injection H as <-.
Qed.

Lemma tagged_stage_copy (h : heap) ings :
  map (fun l => _idx (rd h l)) ings
  = map (fun k => Some (Z.of_nat k)) (seq 0 (length ings)) ->
  tagged (stage_copy h ings).
Proof.
  intros Heq. apply tagged_of_idx.
  rewrite stage_copy_length, <- Heq. unfold stage_copy.
  rewrite map_map. by apply map_ext.
Qed.

Lemma stable_part_stage_copy (h : heap) ings :
  map stable_part (stage_copy h ings)
  = map (fun l => stable_part (rd h l)) ings.
Proof. unfold stage_copy. rewrite map_map. by apply map_ext. Qed.

(** C3: the list returned by the pipeline and by each stage lists the
    ingredients in the order of the input, whatever the partition by
    classification: the k-th returned object has the name, label, tags
    and stable index of the k-th input object.  First for a run of the
    pipeline on any input list, where the entry point tags the objects
    with their positions; then for each stage on its own, for any list
    of objects that carry their positions as stable index, as every
    list handed to a stage does. *)
Theorem order_preserved :
  (forall recipe base pt ct (h : heap),
     let raw := rawList_of recipe base in
     let ids :=
       imap (fun k l => (identity_of (rd h l), Some (Z.of_nat k))) raw in
     let '(indexed, h0) := index_all raw h in
     let '(step1, h1) := scaleProteinToTarget indexed pt h0 in
     let '(step2, h2) := scaleCarbFatToCalories step1 ct h1 in
     let '(fin, h3) := finalizeRecipe recipe step2 ct h2 in
     let '(res, h4) := scaleRecipeForPaths_FixedProtein recipe base pt ct h in
     map (fun l => stable_part (rd h1 l)) step1 = ids /\
     map (fun l => stable_part (rd h2 l)) step2 = ids /\
     map (fun l => stable_part (rd h3 l)) (Finalized.ingredients fin) = ids /\
     map (fun l => stable_part (rd h4 l)) (Result.ingredients res) = ids) /\
  (forall ings t (h : heap),
     map (fun l => _idx (rd h l)) ings
     = map (fun k => Some (Z.of_nat k)) (seq 0 (length ings)) ->
     (let '(res, h') := scaleProteinToTarget ings t h in
      map (fun l => stable_part (rd h' l)) res
      = map (fun l => stable_part (rd h l)) ings) /\
     (let '(res, h') := scaleCarbFatToCalories ings t h in
      map (fun l => stable_part (rd h' l)) res
      = map (fun l => stable_part (rd h l)) ings)) /\
  (forall recipe ings t (h : heap),
     let '(fin, h') := finalizeRecipe recipe ings t h in
     map (fun l => stable_part (rd h' l)) (Finalized.ingredients fin)
     = map (fun l => stable_part (rd h l)) ings).
Proof.
  split; [|split].
  - intros recipe base pt ct h raw ids.
    destruct (pipeline_trace recipe base pt ct h)
      as (E0 & E1 & E2 & fin & v3 & E3 & Hing & Hs3 & E4).
    fold raw in E0, E1, E2, E3, Hing, Hs3, E4.
    set (ivs := indexed_values h raw) in *.
    set (v1 := protein_values (map clone_object ivs) pt) in *.
    set (v2 := calorie_values (map clone_object v1) ct) in *.
    rewrite E0, E1, E2, E3, E4. simpl. rewrite Hing.
    assert (Hids : map stable_part ivs = ids)
      by apply stable_part_indexed_values.
    assert (Hn0 : length ivs = length raw) by apply length_indexed_values.
    assert (Hs1 : map stable_part v1 = map stable_part ivs).
    { unfold v1. by rewrite stable_part_protein_values, stable_part_clone. }
    assert (Hs2 : map stable_part v2 = map stable_part ivs).
    { unfold v2. by rewrite stable_part_calorie_values, stable_part_clone. }
    pose proof (stable_part_length _ _ Hs1) as Hn1.
    pose proof (stable_part_length _ _ Hs2) as Hn2.
    pose proof (stable_part_length _ _ Hs3) as Hn3.
    rewrite <- !(map_map (rd _) stable_part).
    rewrite !map_rd_block by congruence.
    rewrite Hs1, Hs2, Hs3. done.
  - intros ings t h Hidx.
    pose proof (tagged_stage_copy h ings Hidx) as Htag. split.
    + destruct (scaleProteinToTarget_spec ings t h) as (res & -> & _ & Hres).
      rewrite (Hres Htag), <- (map_map (rd _) stable_part).
      rewrite map_rd_block
        by (by rewrite length_protein_values, stage_copy_length).
      by rewrite stable_part_protein_values, stable_part_stage_copy.
    + destruct (scaleCarbFatToCalories_spec ings t h) as (res & -> & _ & Hres).
      rewrite (Hres Htag), <- (map_map (rd _) stable_part).
      rewrite map_rd_block
        by (by rewrite length_calorie_values, stage_copy_length).
      by rewrite stable_part_calorie_values, stable_part_stage_copy.
  - intros recipe ings t h.
    destruct (finalizeRecipe_spec recipe ings t h)
      as (fin & vs' & -> & -> & Hs & _).
    rewrite <- (map_map (rd _) stable_part).
    rewrite map_rd_block
      by (by rewrite (stable_part_length _ _ Hs), stage_copy_length).
    by rewrite Hs, stable_part_stage_copy.
Qed.

Lemma order_preserved_witness :
  let h := [set__idx 0 (sample "pasta" 100 350 12);
            set__idx 1 (sample "chicken" 150 250 30)] in
  (let '(res, h') := scaleProteinToTarget [0; 1]%nat (Fin 45) h in
   map (fun l => stable_part (rd h' l)) res
   = map (fun l => stable_part (rd h l)) [0; 1]%nat) /\
  (let '(res, h') := scaleCarbFatToCalories [0; 1]%nat (Fin 45) h in
   map (fun l => stable_part (rd h' l)) res
   = map (fun l => stable_part (rd h l)) [0; 1]%nat).
Proof.
  exact (proj1 (proj2 order_preserved) [0; 1]%nat (Fin 45)
           [set__idx 0 (sample "pasta" 100 350 12);
            set__idx 1 (sample "chicken" 150 250 30)] eq_refl).
Defined.

(** C10: every object of the [ingredients] array returned by the entry
    point carries the field [_idx], equal to its zero-based position in
    the input list; the array has the length of the input list. *)
Theorem result_carries_idx recipe base pt ct (h : heap) :
  let '(res, h') := scaleRecipeForPaths_FixedProtein recipe base pt ct h in
  map (fun l => _idx (rd h' l)) (Result.ingredients res)
  = map (fun k => Some (Z.of_nat k))
        (seq 0 (length (rawList_of recipe base))).
Proof.
  destruct (pipeline_trace recipe base pt ct h)
    as (_ & _ & _ & fin & v3 & _ & Hing & Hs3 & ->).
  simpl. rewrite Hing.
  pose proof (stable_part_length _ _ Hs3) as Hn3.
  rewrite length_indexed_values in Hn3.
  rewrite <- (map_map (rd _) _idx), map_rd_block by done.
  rewrite <- Hn3. apply tagged_idx.
  apply (tagged_stable _ _ Hs3), tagged_indexed_values.
Qed.

(** ** Numbers *)

Section NumberFacts.
Local Open Scope Q_scope.

Lemma Qzerob_true q : Qzerob q = true <-> q == 0.
Proof. apply Qeq_bool_iff. Qed.

Lemma Qzerob_false q : Qzerob q = false <-> ~ q == 0.
Proof. rewrite <- Qzerob_true. by destruct (Qzerob q). Qed.

Lemma Qle_bool_false a b : Qle_bool a b = false <-> b < a.
Proof.
  rewrite <- not_true_iff_false, Qle_bool_iff.
  split; [apply Qnot_le_lt | apply Qlt_not_le].
Qed.


Lemma Qltb_false a b : Qltb a b = false <-> b <= a.
Proof. unfold Qltb. rewrite negb_false_iff. apply Qle_bool_iff. Qed.

Lemma Qred_inject_Z z : Qred (inject_Z z) = inject_Z z.
Proof. apply Qcanon.Qred_identity. simpl. apply Z.gcd_1_r. Qed.



Lemma Qround_half_up_comp x y : x == y -> Qround_half_up x = Qround_half_up y.
Proof. intros H. unfold Qround_half_up. by rewrite H. Qed.

End NumberFacts.

(** ** Quantity rounder: mass mode *)

Section MassRounding.
Local Open Scope Q_scope.

Lemma roundAmount_g name q :
  roundAmount name "g" (Fin q) =
  let v := if Qle_bool 0 q then Fin q else Fin 0 in
  if nle v (Fin 20) then nround v
  else if nle v (Fin 150) then nmul (nround (ndiv v (Fin 5))) (Fin 5)
  else nmul (nround (ndiv v (Fin 10))) (Fin 10).
Proof. reflexivity. Qed.




End MassRounding.

(** ** Quantity rounder: volume mode *)

Section CupRounding.
Local Open Scope Q_scope.




End CupRounding.

(** ** The objects of a stage, one by one *)

Lemma stage_copy_lookup (h : heap) ings k l :
  ings !! k = Some l ->
  stage_copy h ings !! k = Some (clone_object (rd h l)).
Proof.
  intros Hl. unfold stage_copy.
  change (map ?f ?x) with (f <$> x). by rewrite list_lookup_fmap, Hl.
Qed.

Lemma rd_block_lookup (h vs : heap) k v :
  vs !! k = Some v -> rd (h ++ vs) (length h + k) = v.
Proof. intros Hv. by rewrite rd_app_r, Hv. Qed.

Lemma protein_values_lookup vs t k v :
  vs !! k = Some v ->
  protein_values vs t !! k
  = Some (if protein_noop vs t then v
          else if isProtein v
               then scale_protein_item (protein_factor t (protein_now vs)) v
               else v).
Proof.
  intros Hv. unfold protein_values. destruct (protein_noop vs t); [done|].
  change (map ?f ?x) with (f <$> x). by rewrite list_lookup_fmap, Hv.
Qed.

Lemma calorie_values_lookup vs t k v :
  vs !! k = Some v ->
  calorie_values vs t !! k
  = Some (if calorie_noop vs t then v
          else if scalable v
               then scale_calorie_item (calorie_factor vs t) v
               else v).
Proof.
  intros Hv. unfold calorie_values. destruct (calorie_noop vs t); [done|].
  change (map ?f ?x) with (f <$> x). by rewrite list_lookup_fmap, Hv.
Qed.

Lemma protein_noop_false vs t k v :
  vs !! k = Some v -> isProtein v = true -> isFinite t = true ->
  protein_noop vs t = false.
Proof.
  intros Hv Hp Ht. unfold protein_noop. rewrite Ht. simpl.
  rewrite orb_false_r. apply Nat.eqb_neq.
  assert (Hin : In v (List.filter isProtein vs)).
  { apply filter_In. split; [|done].
    apply list_elem_of_In, list_elem_of_lookup. eauto. }
  destruct (List.filter isProtein vs); [done|]. simpl. lia.
Qed.


(** ** Protein scaling stage *)




(** ** Proportional scaling *)

Section Proportional.
Local Open Scope Q_scope.

Lemma or0_Some_Fin q : exists q', or0 (Some (Fin q)) = Fin q' /\ q' == q.
Proof.
  unfold or0, num_or, truthy. destruct (Qzerob q) eqn:Hz; simpl.
  - exists 0. split; [done|]. symmetry. by apply Qzerob_true.
  - by exists q.
Qed.

Lemma or0_json_num x : exists q, or0 (json_num x) = Fin q.
Proof.
  destruct x as [[q| | |]|]; simpl; try (by exists 0).
  destruct (or0_Some_Fin q) as (q' & Hq & _). by exists q'.
Qed.


Lemma nmax_1_Fin a : exists b, nmax (Fin 1) (Fin a) = Fin b /\ 1 <= b.
Proof.
  unfold nmax, nle. destruct (Qle_bool 1 a) eqn:H.
  - exists a. split; [done|]. by apply Qle_bool_iff.
  - exists 1. split; [done|]. apply Qle_refl.
Qed.

Lemma ndiv_ge_1 g b : 1 <= b -> ndiv (Fin g) (Fin b) = Fin (Qred (g / b)).
Proof.
  intros Hb. unfold ndiv.
  assert (Hz : Qzerob b = false) by (apply Qzerob_false; intros E; lra).
  by rewrite Hz.
Qed.

Lemma nearer_in value l a :
  fold_left (nearer value) l a = a \/ In (fold_left (nearer value) l a) l.
Proof.
  revert a. induction l as [|b l IH]; intros a; simpl; [by left|].
  destruct (IH (nearer value a b)) as [->|Hin]; [|by right; right].
  unfold nearer. destruct (nlt _ _); [right; by left | by left].
Qed.

(** Both rounding modes return a finite number. *)
Lemma roundAmount_g_finite name x : exists g, roundAmount name "g" x = Fin g.
Proof.
  destruct x as [q| | |]; try (by exists 0).
  rewrite roundAmount_g. cbv zeta.
  destruct (Qle_bool 0 q); unfold nle, ndiv, nround, nmul; simpl;
    repeat (destruct (Qle_bool _ _)); by eexists.
Qed.

Lemma roundAmount_cups_finite name x : exists g, roundAmount name "cups" x = Fin g.
Proof.
  destruct x as [q| | |]; try (by exists 0).
  change (roundAmount name "cups" (Fin q))
    with (fold_left (nearer (Fin q)) frac (Fin 0)).
  pose proof (nearer_in (Fin q) frac (Fin 0)) as H.
  set (r := fold_left (nearer (Fin q)) frac (Fin 0)) in *. clearbody r.
  destruct H as [->|Hin]; [by eexists|].
  unfold frac in Hin. simpl in Hin.
  repeat (destruct Hin as [<-|Hin]; [by eexists|]). done.
Qed.



End Proportional.

Lemma scale_protein_item_fields factor v :
  let newG := roundAmount (label v) "g" (nmul (or0 (amount_g v)) factor) in
  let f := ndiv newG (nmax (Fin 1) (or0 (amount_g v))) in
  amount_g (scale_protein_item factor v) = Some newG /\
  calories_kcal (scale_protein_item factor v)
  = Some (nmul (or0 (calories_kcal v)) f) /\
  protein_g (scale_protein_item factor v) = Some (nmul (or0 (protein_g v)) f).
Proof. done. Qed.







(** ** Calorie scaling stage *)






(** ** Finite numbers through the calorie stage *)

Lemma json_num_idem x : json_num (json_num x) = json_num x.
Proof. by destruct x as [[]|]. Qed.

Lemma clone_object_clean x : json_clean (clone_object x).
Proof.
  unfold json_clean, clone_object. simpl. by rewrite !json_num_idem.
Qed.

Lemma json_clean_fields i :
  json_num (amount_g i) = amount_g i ->
  json_num (amount_cups i) = amount_cups i ->
  json_num (calories_kcal i) = calories_kcal i ->
  json_num (protein_g i) = protein_g i ->
  json_clean i.
Proof.
  destruct i. unfold json_clean, clone_object. simpl.
  by intros -> -> -> ->.
Qed.



Lemma stage_copy_clean (h : heap) ings : Forall json_clean (stage_copy h ings).
Proof.
  apply Forall_forall. intros w Hw.
  apply list_elem_of_fmap in Hw as (l & -> & _).
  apply clone_object_clean.
Qed.


(** ** Finalization *)





(** ** Targets that are not finite *)

(** With a protein target that is not finite the protein stage returns
    its deep copy as it is. *)
Lemma scaleProteinToTarget_not_finite ings t (h : heap) :
  isFinite t = false ->
  scaleProteinToTarget ings t h
  = (seq (length h) (length ings), h ++ stage_copy h ings).
Proof.
  intros Ht.
  unfold scaleProteinToTarget, bind, cloneDeep, filterA, sumA, read_all, ret,
    bind.
  cbv beta iota zeta. by rewrite Ht, orb_true_r.
Qed.

(** C1 fails in the calorie stage: it has no test of finiteness, and
    with the target +Infinity the factor is infinite, every product
    amount x factor is rejected by the rounder and every scalable
    ingredient comes out with amount, cups, calories and protein 0. *)
Theorem calorie_stage_infinite_target :
  let h := [sample "pasta" 100 350 12] in
  let '(res, h') := scaleCarbFatToCalories [0%nat] PInf h in
  map (rd h') res
  = [mkIngredient (Some "pasta") None None (Some (Fin 0)) (Some (Fin 0))
                  (Some (Fin 0)) (Some (Fin 0)) None].
Proof. by vm_compute. Qed.

(** * Further properties of the scaler *)

(** ** The grid of the mass mode *)

Section MassGrid.
Local Open Scope Q_scope.

Lemma roundAmount_g_grid name q :
  roundAmount name "g" (Fin q) = Fin (inject_Z (mass_grid q)).
Proof.
  rewrite roundAmount_g. unfold mass_grid. cbv zeta.
  assert (Hstep : forall v s : Z, forall x,
            nmul (nround (Fin (Qred (x / inject_Z s)))) (Fin (inject_Z s))
            = Fin (inject_Z (Qround_half_up (x / inject_Z s) * s))).
  { intros _ s x. unfold nround, nmul.
    rewrite (Qround_half_up_comp _ _ (Qred_correct _)).
    by rewrite <- inject_Z_mult, Qred_inject_Z. }
  destruct (Qle_bool 0 q); unfold nle;
    destruct (Qle_bool _ 20); try done;
    destruct (Qle_bool _ 150);
    first [ apply (Hstep 0%Z 5%Z) | apply (Hstep 0%Z 10%Z) ].
Qed.

Lemma Qround_half_up_mono x y :
  x <= y -> (Qround_half_up x <= Qround_half_up y)%Z.
Proof.
  intros H. unfold Qround_half_up. apply Qfloor_resp_le. lra.
Qed.



(** The three bands meet: a band never returns less than the band
    below it can, nor more than the band above it can. *)
Lemma mass_grid_bands q :
  let v := if Qle_bool 0 q then q else 0 in
  (0 <= mass_grid q)%Z /\
  (v <= 20 -> (mass_grid q <= 20)%Z) /\
  (20 < v -> (20 <= mass_grid q)%Z) /\
  (v <= 150 -> (mass_grid q <= 150)%Z) /\
  (150 < v -> (150 <= mass_grid q)%Z).
Proof.
  intros v. unfold mass_grid. fold v.
  assert (Hv : 0 <= v).
  { unfold v. destruct (Qle_bool 0 q) eqn:E; [by apply Qle_bool_iff | lra]. }
  pose proof (Qround_half_up_mono 0 v Hv) as R0.
  change (Qround_half_up 0) with 0%Z in R0.
  destruct (Qle_bool v 20) eqn:E20.
  - apply Qle_bool_iff in E20.
    pose proof (Qround_half_up_mono v 20 E20) as R20.
    change (Qround_half_up 20) with 20%Z in R20.
    repeat split; intros; try lia; lra.
  - apply Qle_bool_false in E20.
    assert (R4 : (4 <= Qround_half_up (v / 5))%Z).
    { change 4%Z with (Qround_half_up 4). apply Qround_half_up_mono.
      apply Qle_shift_div_l; lra. }
    assert (R15 : 150 < v -> (15 <= Qround_half_up (v / 10))%Z).
    { intros H. change 15%Z with (Qround_half_up 15).
      apply Qround_half_up_mono. apply Qle_shift_div_l; lra. }
    destruct (Qle_bool v 150) eqn:E150.
    + apply Qle_bool_iff in E150.
      assert (R30 : (Qround_half_up (v / 5) <= 30)%Z).
      { change 30%Z with (Qround_half_up 30). apply Qround_half_up_mono.
        apply Qle_shift_div_r; lra. }
      repeat split; intros; try lia; lra.
    + apply Qle_bool_false in E150. specialize (R15 E150).
      repeat split; intros; try lia; lra.
Qed.

Lemma mass_grid_mono q1 q2 : q1 <= q2 -> (mass_grid q1 <= mass_grid q2)%Z.
Proof.
  intros Hq.
  destruct (mass_grid_bands q1) as (_ & A20 & B20 & A150 & B150).
  destruct (mass_grid_bands q2) as (_ & C20 & D20 & C150 & D150).
  cbv zeta in *. unfold mass_grid in *.
  set (v1 := if Qle_bool 0 q1 then q1 else 0) in *.
  set (v2 := if Qle_bool 0 q2 then q2 else 0) in *.
  assert (Hv : v1 <= v2).
  { unfold v1, v2.
    destruct (Qle_bool 0 q1) eqn:E1, (Qle_bool 0 q2) eqn:E2;
      try apply Qle_bool_iff in E1; try apply Qle_bool_iff in E2;
      try apply Qle_bool_false in E1; try apply Qle_bool_false in E2; lra. }
  destruct (Qle_bool v1 20) eqn:E1, (Qle_bool v2 20) eqn:E2;
    try apply Qle_bool_iff in E1; try apply Qle_bool_iff in E2;
    try apply Qle_bool_false in E1; try apply Qle_bool_false in E2.
  - by apply Qround_half_up_mono.
  - specialize (A20 E1). specialize (D20 E2). lia.
  - lra.
  - destruct (Qle_bool v1 150) eqn:F1, (Qle_bool v2 150) eqn:F2;
      try apply Qle_bool_iff in F1; try apply Qle_bool_iff in F2;
      try apply Qle_bool_false in F1; try apply Qle_bool_false in F2.
    + apply Z.mul_le_mono_nonneg_r; [lia|].
      apply Qround_half_up_mono. apply Qmult_le_r; [reflexivity | done].
    + specialize (A150 F1). specialize (D150 F2). lia.
    + lra.
    + apply Z.mul_le_mono_nonneg_r; [lia|].
      apply Qround_half_up_mono. apply Qmult_le_r; [reflexivity | done].
Qed.




(** X1: the mass mode is monotone over all its bands: a larger input
    never gives a smaller amount. *)
Theorem roundAmount_mass_monotone name q1 q2 :
  q1 <= q2 ->
  nle (roundAmount name "g" (Fin q1)) (roundAmount name "g" (Fin q2)) = true.
Proof.
  intros Hq. rewrite !roundAmount_g_grid. simpl.
  apply Qle_bool_iff. rewrite <- Zle_Qle. by apply mass_grid_mono.
Qed.

Lemma roundAmount_mass_monotone_witness :
  nle (roundAmount "oats" "g" (Fin 20)) (roundAmount "oats" "g" (Fin (41 # 2)))
  = true.
Proof.
  apply (roundAmount_mass_monotone "oats" 20 (41 # 2)). discriminate.
Defined.



End MassGrid.

(** ** Volume mode, other units, repeated rounding *)

Section CupFacts.
Local Open Scope Q_scope.






(** X5: the density guess is always one of the eight table values, all
    between 80 and 245 grams per cup: the division by it is never a
    division by zero and the fallback [|| 240] of [finalizeRecipe] is
    never taken. *)
Theorem guessGPerCup_positive name :
  exists g, guessGPerCup name = Fin g /\ 80 <= g <= 245 /\
            num_or (guessGPerCup name) (Fin 240) = guessGPerCup name.
Proof.
  unfold guessGPerCup. cbv zeta.
  repeat (match goal with
          | |- context [if ?b then _ else _] => destruct b
          end);
    eexists; (split; [reflexivity|]); split; try reflexivity;
    split; discriminate.
Qed.

End CupFacts.

(** ** Totals *)

Section TotalsFacts.
Local Open Scope Q_scope.

Lemma sum_finite {A} (vs : list A) (fn : A -> num) :
  Forall (fun v => exists q, fn v = Fin q) vs -> exists q, sum vs fn = Fin q.
Proof.
  unfold sum. generalize 0 as q0.
  induction vs as [|v vs IH]; intros q0 Hvs; simpl; [by eexists|].
  apply Forall_cons in Hvs as [[q Hq] Hvs]. rewrite Hq. simpl.
  by apply IH.
Qed.

Lemma sum_nonneg {A} (vs : list A) (fn : A -> num) :
  Forall (fun v => exists q, fn v = Fin q /\ 0 <= q) vs ->
  exists q, sum vs fn = Fin q /\ 0 <= q.
Proof.
  intros Hvs. unfold sum.
  assert (Haux : forall q0, 0 <= q0 ->
            exists q, fold_left (fun a x => nadd a (fn x)) vs (Fin q0) = Fin q
                      /\ 0 <= q).
  { induction vs as [|v vs IH]; intros q0 H0; simpl; [by eexists|].
    apply Forall_cons in Hvs as [(q & Hq & Hq0) Hvs]. rewrite Hq. simpl.
    apply IH; [done|]. rewrite Qred_correct. lra. }
  apply Haux, Qle_refl.
Qed.

Lemma clean_or0_finite v :
  json_clean v ->
  (exists q, or0 (amount_g v) = Fin q) /\
  (exists q, or0 (calories_kcal v) = Fin q) /\
  (exists q, or0 (protein_g v) = Fin q).
Proof.
  intros <-. simpl. repeat split; apply or0_json_num.
Qed.




End TotalsFacts.

(** ** Finalization, case by case *)

Lemma findIndex_spec {A} (p : A -> bool) (l : list A) :
  (findIndex p l = -1 /\ Forall (fun x => p x = false) l) \/
  (exists (k : nat) x,
      findIndex p l = Z.of_nat k /\ l !! k = Some x /\ p x = true /\
      forall j y, (j < k)%nat -> l !! j = Some y -> p y = false).
Proof.
  induction l as [|a l IH]; simpl; [left; by split|].
  destruct (p a) eqn:Ha.
  - right. exists 0%nat, a. repeat split; [done|]. intros j y Hj. lia.
  - destruct IH as [[-> Hall]|(k & x & -> & Hk & Hx & Hfirst)].
    + left. split; [done | by constructor].
    + right. exists (S k), x.
      destruct (Z.eqb_spec (Z.of_nat k) (-1)) as [E|_]; [lia|].
      repeat split; [lia | done | done |].
      intros [|j] y Hj Hy; [by injection Hy as <-|].
      apply (Hfirst j); [lia | done].
Qed.

Lemma findIndex_map {A B} (f : A -> B) (p : B -> bool) (l : list A) :
  findIndex (fun x => p (f x)) l = findIndex p (map f l).
Proof. induction l as [|a l IH]; simpl; [done|]. by rewrite IH. Qed.

Lemma findIndex_fresh (p : Ingredient -> bool) (h vs : heap) :
  findIndex (fun l => p (rd (h ++ vs) l)) (seq (length h) (length vs))
  = findIndex p vs.
Proof. by rewrite (findIndex_map (rd (h ++ vs)) p), map_rd_fresh. Qed.

Lemma finalizeRecipe_shape recipe ings ct (h : heap) :
  let vs := stage_copy h ings in
  exists fin vs',
    finalizeRecipe recipe ings ct h = (fin, h ++ vs') /\
    Finalized.ingredients fin = seq (length h) (length ings) /\
    Finalized.totals fin = computeTotals vs' /\
    (vs' = vs \/
     exists k v,
       isFinite ct = true /\
       ngt (nabs (nudge_diff vs ct)) (Fin 5) = true /\
       nudge_choice vs k v /\
       ngt (calPerG_of v) (Fin 0) = true /\
       vs' = <[k := nudge_item (nudge_diff vs ct) (calPerG_of v) v]> vs).
Proof.
  intros vs.
  unfold finalizeRecipe, computeTotalsA, findIndexA, bind, cloneDeep, read_all,
    ret, bind.
  cbv beta iota zeta. fold (stage_copy h ings). fold vs.
  replace (length ings) with (length vs) by apply stage_copy_length.
  rewrite map_rd_fresh. fold (nudge_diff vs ct).
  destruct (isFinite ct) eqn:Hfin; cbv beta iota;
    [|eexists _, vs; repeat split; by left].
  destruct (ngt _ (Fin 5)) eqn:Hgt; cbv beta iota;
    [|eexists _, vs; repeat split; by left].
  rewrite !findIndex_fresh.
  assert (Htail : forall k v, nudge_choice vs k v ->
    forall P : Prop,
      ((Z.of_nat k =? -1) = false ->
       Z.to_nat (Z.of_nat k) = k ->
       seq (length h) (length vs) !! k = Some (length h + k)%nat ->
       rd (h ++ vs) (length h + k) = v -> P) -> P).
  { intros k v [Hk _] P HP.
    assert (Hlt : (k < length vs)%nat) by (by eapply lookup_lt_Some).
    apply HP.
    - destruct (Z.eqb_spec (Z.of_nat k) (-1)); [lia | done].
    - apply Nat2Z.id.
    - by apply lookup_seq_lt.
    - by apply rd_block_lookup. }
  destruct (findIndex_spec nudge_candidate vs)
    as [[E1 Hall]|(k & v & E1 & Hk & Hv & Hfirst)]; rewrite E1.
  - change (-1 =? -1) with true. cbv beta iota. rewrite findIndex_fresh.
    destruct (findIndex_spec nudge_fallback vs)
      as [[E2 _]|(k & v & E2 & Hk & Hv & Hfirst)]; rewrite E2.
    + change (negb (-1 =? -1)) with false. cbv beta iota.
      eexists _, vs. repeat split; by left.
    + assert (Hch : nudge_choice vs k v) by (split; [done|]; right; by repeat split).
      apply (Htail k v Hch). intros Eb Ek Es Er.
      rewrite Eb, Ek, Es. change (negb false) with true. cbv beta iota.
      rewrite Er. fold (calPerG_of v).
      destruct (ngt (calPerG_of v) (Fin 0)) eqn:Hc;
        [|eexists _, vs; repeat split; by left].
      unfold modify. cbv beta iota. rewrite Er, insert_app_r.
      rewrite map_rd_block by (by rewrite length_insert).
      eexists _, _. split; [reflexivity|]. split; [done|]. split; [done|].
      right. exists k, v.
      split; [done|]. split; [done|]. split; [exact Hch|]. by split.
  - assert (Hch : nudge_choice vs k v) by (split; [done|]; left; by split).
    apply (Htail k v Hch). intros Eb Ek Es Er.
    rewrite Eb. cbv beta iota. rewrite Eb, Ek, Es.
    change (negb false) with true. cbv beta iota.
    rewrite Er. fold (calPerG_of v).
    destruct (ngt (calPerG_of v) (Fin 0)) eqn:Hc;
      [|eexists _, vs; repeat split; by left].
    unfold modify. cbv beta iota. rewrite Er, insert_app_r.
    rewrite map_rd_block by (by rewrite length_insert).
    eexists _, _. split; [reflexivity|]. split; [done|]. split; [done|].
    right. exists k, v.
      split; [done|]. split; [done|]. split; [exact Hch|]. by split.
Qed.

(** ** Finite numbers through every stage *)

Lemma scaled_fields_clean v new g :
  json_clean v ->
  amount_g new = Some (Fin g) ->
  calories_kcal new
  = Some (nmul (or0 (calories_kcal v))
               (ndiv (Fin g) (nmax (Fin 1) (or0 (amount_g v))))) ->
  protein_g new
  = Some (nmul (or0 (protein_g v))
               (ndiv (Fin g) (nmax (Fin 1) (or0 (amount_g v))))) ->
  json_num (amount_cups new) = amount_cups new ->
  json_clean new.
Proof.
  intros Hv Hg Hc Hp Hcup.
  destruct (clean_or0_finite v Hv) as ([a Ea] & [c Ec] & [p Ep]).
  rewrite Ea in Hc, Hp. rewrite Ec in Hc. rewrite Ep in Hp.
  destruct (nmax_1_Fin a) as (b & Eb & Hb).
  rewrite Eb, (ndiv_ge_1 _ _ Hb) in Hc, Hp.
  apply json_clean_fields; [by rewrite Hg | done | by rewrite Hc | by rewrite Hp].
Qed.

Lemma scale_protein_item_clean factor v :
  json_clean v -> json_clean (scale_protein_item factor v).
Proof.
  intros Hv.
  destruct (scale_protein_item_fields factor v) as (Hg & Hc & Hp).
  assert (Hcup : amount_cups (scale_protein_item factor v) = amount_cups v)
    by done.
  set (new := scale_protein_item factor v) in *. clearbody new.
  destruct (roundAmount_g_finite (label v) (nmul (or0 (amount_g v)) factor))
    as [g Eg].
  rewrite Eg in Hg, Hc, Hp.
  apply (scaled_fields_clean v new g); try done.
  rewrite Hcup, <- Hv. simpl. apply json_num_idem.
Qed.

Lemma nudge_item_fields d c v :
  let newG := roundAmount (label v) "g" (nadd (or0 (amount_g v)) (ndiv d c)) in
  let f := ndiv newG (nmax (Fin 1) (or0 (amount_g v))) in
  amount_g (nudge_item d c v) = Some newG /\
  calories_kcal (nudge_item d c v) = Some (nmul (or0 (calories_kcal v)) f) /\
  protein_g (nudge_item d c v) = Some (nmul (or0 (protein_g v)) f) /\
  amount_cups (nudge_item d c v)
  = Some (roundAmount (label v) "cups"
            (ndiv newG (num_or (guessGPerCup (label v)) (Fin 240)))).
Proof. done. Qed.

Lemma nudge_item_clean d c v : json_clean v -> json_clean (nudge_item d c v).
Proof.
  intros Hv.
  destruct (nudge_item_fields d c v) as (Hg & Hc & Hp & Hcup).
  set (new := nudge_item d c v) in *. clearbody new.
  destruct (roundAmount_g_finite (label v) (nadd (or0 (amount_g v)) (ndiv d c)))
    as [g Eg].
  rewrite Eg in Hg, Hc, Hp, Hcup.
  destruct (roundAmount_cups_finite (label v)
              (ndiv (Fin g) (num_or (guessGPerCup (label v)) (Fin 240))))
    as [u Eu].
  rewrite Eu in Hcup.
  apply (scaled_fields_clean v new g); try done. by rewrite Hcup.
Qed.

Lemma protein_values_clean vs t :
  Forall json_clean vs -> Forall json_clean (protein_values vs t).
Proof.
  intros Hvs. unfold protein_values. destruct (protein_noop vs t); [done|].
  apply Forall_forall. intros w Hw.
  apply list_elem_of_fmap in Hw as (v & -> & Hv).
  pose proof (proj1 (Forall_forall _ _) Hvs v Hv) as Hclean.
  destruct (isProtein v); [by apply scale_protein_item_clean | done].
Qed.

Lemma map_clone_clean vs : Forall json_clean (map clone_object vs).
Proof.
  apply Forall_forall. intros w Hw.
  apply list_elem_of_fmap in Hw as (v & -> & _). apply clone_object_clean.
Qed.

Lemma insert_clean vs k x :
  Forall json_clean vs -> json_clean x -> Forall json_clean (<[k := x]> vs).
Proof. intros Hvs Hx. by apply Forall_insert. Qed.

(** The contents of the copy [finalizeRecipe] returns are finite. *)
Lemma finalizeRecipe_clean recipe ings ct (h : heap) fin vs' :
  finalizeRecipe recipe ings ct h = (fin, h ++ vs') ->
  Forall json_clean vs'.
Proof.
  intros E.
  destruct (finalizeRecipe_shape recipe ings ct h)
    as (fin' & vs'' & E' & _ & _ & Hcase).
  rewrite E in E'. injection E' as _ Eh. apply app_inv_head in Eh as <-.
  destruct Hcase as [->|(k & v & _ & _ & [Hk _] & _ & ->)].
  - apply stage_copy_clean.
  - apply insert_clean; [apply stage_copy_clean|].
    apply nudge_item_clean.
    apply (proj1 (Forall_forall _ _) (stage_copy_clean h ings)).
    apply list_elem_of_lookup. eauto.
Qed.

Lemma finalizeRecipe_totals recipe ings ct (h : heap) fin vs' :
  finalizeRecipe recipe ings ct h = (fin, h ++ vs') ->
  Finalized.totals fin = computeTotals vs' /\
  Finalized.ingredients fin = seq (length h) (length ings) /\
  length vs' = length ings.
Proof.
  intros E.
  destruct (finalizeRecipe_shape recipe ings ct h)
    as (fin' & vs'' & E' & Hing & Htot & Hcase).
  rewrite E in E'. injection E' as <- Eh. apply app_inv_head in Eh as <-.
  split; [done|]. split; [done|].
  destruct Hcase as [->|(k & v & _ & _ & _ & _ & ->)];
    by rewrite ?length_insert, stage_copy_length.
Qed.


(** ** Finalization stage *)

(** X7: the totals [finalizeRecipe] returns are always the totals of
    the ingredients it returns, nudged or not. *)
Theorem finalizeRecipe_totals_consistent recipe ings ct (h : heap) :
  let '(fin, h') := finalizeRecipe recipe ings ct h in
  Finalized.totals fin
  = computeTotals (map (rd h') (Finalized.ingredients fin)).
Proof.
  destruct (finalizeRecipe_shape recipe ings ct h)
    as (fin & vs' & E & _ & _ & _).
  rewrite E.
  destruct (finalizeRecipe_totals _ _ _ _ _ _ E) as (-> & -> & Hlen).
  by rewrite map_rd_block.
Qed.

(** X8: [finalizeRecipe] changes at most one ingredient: all objects of
    its result but at most one are plain deep copies of the input
    objects, in input order. *)
Theorem finalizeRecipe_single_nudge recipe ings ct (h : heap) :
  let '(fin, h') := finalizeRecipe recipe ings ct h in
  exists k : nat,
    forall j l, ings !! j = Some l -> j <> k ->
      Finalized.ingredients fin !! j = Some (length h + j)%nat /\
      rd h' (length h + j) = clone_object (rd h l).
Proof.
  destruct (finalizeRecipe_shape recipe ings ct h)
    as (fin & vs' & -> & Hing & _ & Hcase).
  rewrite Hing.
  assert (Hseq : forall j l, ings !! j = Some l ->
            seq (length h) (length ings) !! j = Some (length h + j)%nat).
  { intros j l Hl. apply lookup_seq_lt. by eapply lookup_lt_Some. }
  destruct Hcase as [->|(k & v & _ & _ & _ & _ & ->)].
  - exists 0%nat. intros j l Hl _. split; [by eapply Hseq|].
    by apply rd_block_lookup, stage_copy_lookup.
  - exists k. intros j l Hl Hjk. split; [by eapply Hseq|].
    apply rd_block_lookup. rewrite list_lookup_insert_ne by done.
    by apply stage_copy_lookup.
Qed.

(** X9: with a calorie target that is not finite, [finalizeRecipe]
    makes no correction: it returns the deep copy of its input and the
    totals of that copy. *)
Theorem finalizeRecipe_not_finite recipe ings ct (h : heap) :
  isFinite ct = false ->
  let '(fin, h') := finalizeRecipe recipe ings ct h in
  h' = h ++ stage_copy h ings /\
  Finalized.ingredients fin = seq (length h) (length ings) /\
  Finalized.totals fin = computeTotals (stage_copy h ings).
Proof.
  intros Hct.
  destruct (finalizeRecipe_shape recipe ings ct h)
    as (fin & vs' & -> & Hing & Htot & Hcase).
  destruct Hcase as [->|(k & v & Hfin & _)]; [done | congruence].
Qed.

Lemma finalizeRecipe_not_finite_witness :
  let '(fin, h') :=
    finalizeRecipe None [0%nat] NaN [sample "pasta" 100 350 12] in
  h' = [sample "pasta" 100 350 12] ++
       stage_copy [sample "pasta" 100 350 12] [0%nat] /\
  Finalized.ingredients fin = [1%nat] /\
  Finalized.totals fin
  = computeTotals (stage_copy [sample "pasta" 100 350 12] [0%nat]).
Proof.
  exact (finalizeRecipe_not_finite None [0%nat] NaN
           [sample "pasta" 100 350 12] eq_refl).
Defined.

(** X10: an ingredient that comes out of [finalizeRecipe] different
    from its deep copy is the one the nudge went to: the target is
    finite, the rounded gap to the target exceeds 5, the ingredient is
    the first carb/fat-bearing one with positive calories and non-zero
    amount (or, if there is none, the first with non-zero amount and
    positive calories), its calories per gram are positive, and it was
    rewritten by the assignments of the nudge. *)
Theorem finalizeRecipe_nudged_ingredient recipe ings ct (h : heap) j l :
  ings !! j = Some l ->
  let vs := stage_copy h ings in
  let old := clone_object (rd h l) in
  let '(fin, h') := finalizeRecipe recipe ings ct h in
  rd h' (length h + j) <> old ->
  isFinite ct = true /\
  ngt (nabs (nudge_diff vs ct)) (Fin 5) = true /\
  nudge_choice vs j old /\
  ngt (calPerG_of old) (Fin 0) = true /\
  rd h' (length h + j) = nudge_item (nudge_diff vs ct) (calPerG_of old) old.
Proof.
  intros Hl vs old.
  destruct (finalizeRecipe_shape recipe ings ct h)
    as (fin & vs' & -> & _ & _ & Hcase).
  pose proof (stage_copy_lookup h ings j l Hl) as Hold.
  fold vs old in Hold, Hcase. intros Hne.
  destruct Hcase as [->|(k & v & Hfin & Hgt & Hch & Hc & ->)].
  - by rewrite (rd_block_lookup _ _ _ _ Hold) in Hne.
  - destruct (decide (j = k)) as [->|Hjk].
    + pose proof Hch as [Hk _]. rewrite Hold in Hk. injection Hk as <-.
      repeat (split; [done|]).
      apply rd_block_lookup, list_lookup_insert_eq.
      by eapply lookup_lt_Some.
    + exfalso. apply Hne, rd_block_lookup.
      by rewrite list_lookup_insert_ne.
Qed.

Lemma finalizeRecipe_nudged_ingredient_witness :
  let h := [sample "salt" 5 50 0; sample "pasta" 100 200 7] in
  let vs := stage_copy h [0; 1]%nat in
  let old := clone_object (rd h 1%nat) in
  let '(fin, h') := finalizeRecipe None [0; 1]%nat (Fin 300) h in
  nudge_choice vs 1 old /\
  rd h' 3 = nudge_item (nudge_diff vs (Fin 300)) (calPerG_of old) old /\
  amount_g (rd h' 3) = Some (Fin 125).
Proof.
  pose proof (finalizeRecipe_nudged_ingredient None [0; 1]%nat (Fin 300)
                [sample "salt" 5 50 0; sample "pasta" 100 200 7] 1%nat 1%nat
                eq_refl) as H.
  cbv zeta in H.
  destruct (finalizeRecipe None [0; 1]%nat (Fin 300)
              [sample "salt" 5 50 0; sample "pasta" 100 200 7])
    as [fin h'] eqn:E.
  vm_compute in E. injection E as _ <-.
  assert (Hne : rd [sample "salt" 5 50 0; sample "pasta" 100 200 7;
                    clone_object (sample "salt" 5 50 0);
                    nudge_item (Fin 50) (Fin 2) (sample "pasta" 100 200 7)]
                   (2 + 1)
                <> clone_object (sample "pasta" 100 200 7))
    by (vm_compute; discriminate).
  destruct (H Hne) as (_ & _ & Hch & _ & Hrd).
  split; [exact Hch|]. split; [exact Hrd | reflexivity].
Defined.

(** ** The result of the pipeline *)

(** The objects returned by the pipeline and its totals. *)
Lemma pipeline_result recipe base pt ct (h : heap) :
  exists res h' vs,
    scaleRecipeForPaths_FixedProtein recipe base pt ct h = (res, h') /\
    map (rd h') (Result.ingredients res) = vs /\
    length vs = length (rawList_of recipe base) /\
    Forall json_clean vs /\
    Result.totals res = computeTotals vs /\
    Result.scaled_serving res = Result.totals res /\
    (rawList_of recipe base = [] -> h' = h).
Proof.
  destruct (pipeline_trace recipe base pt ct h)
    as (_ & _ & _ & fin & v3 & E3 & Hing & Hs3 & E4).
  destruct (finalizeRecipe_totals _ _ _ _ _ _ E3) as (Htot & _ & Hlen).
  rewrite length_seq in Hlen.
  eexists _, _, v3. split; [exact E4|]. simpl.
  split; [rewrite Hing; by apply map_rd_block|].
  split; [done|].
  split; [by eapply finalizeRecipe_clean|].
  split; [done|]. split; [by destruct (Finalized.totals fin)|].
  intros Hraw. rewrite Hraw in *.
  destruct v3; [|done].
  change (indexed_values h []) with (@nil Ingredient). simpl map.
  change (protein_values [] pt) with (@nil Ingredient). simpl map.
  change (calorie_values [] ct) with (@nil Ingredient).
  by rewrite !app_nil_r.
Qed.



(** X13: on an empty ingredient list the entry point allocates nothing
    and returns no ingredients and totals of 0 kcal and 0 g, whatever
    the targets. *)
Theorem result_of_empty_list recipe base pt ct (h : heap) :
  rawList_of recipe base = [] ->
  let '(res, h') := scaleRecipeForPaths_FixedProtein recipe base pt ct h in
  h' = h /\
  Result.ingredients res = [] /\
  Result.totals res = Totals.mk (Fin 0) (Fin 0).
Proof.
  intros Hraw.
  destruct (pipeline_result recipe base pt ct h)
    as (res & h' & vs & -> & Hvs & Hlen & _ & -> & _ & Hh).
  rewrite Hraw in Hlen. destruct vs; [|done].
  split; [by apply Hh|]. split; [|done].
  by destruct (Result.ingredients res).
Qed.

Lemma result_of_empty_list_witness :
  let '(res, h') :=
    scaleRecipeForPaths_FixedProtein None BaseOther (Fin 40) PInf
      [sample "pasta" 100 350 12] in
  h' = [sample "pasta" 100 350 12] /\
  Result.ingredients res = [] /\
  Result.totals res = Totals.mk (Fin 0) (Fin 0).
Proof.
  exact (result_of_empty_list None BaseOther (Fin 40) PInf
           [sample "pasta" 100 350 12] eq_refl).
Defined.

(** ** The early returns of the two scaling stages *)

Lemma scaleProteinToTarget_noop ings t (h : heap) :
  protein_noop (stage_copy h ings) t = true ->
  scaleProteinToTarget ings t h
  = (seq (length h) (length ings), h ++ stage_copy h ings).
Proof.
  intros Hnoop.
  unfold scaleProteinToTarget, bind, cloneDeep, filterA, sumA, read_all, ret,
    bind.
  cbv beta iota zeta. fold (stage_copy h ings).
  set (vs := stage_copy h ings) in *.
  replace (length ings) with (length vs) by apply stage_copy_length.
  rewrite (length_filter_fresh isProtein).
  unfold protein_noop in Hnoop. by rewrite Hnoop.
Qed.

Lemma scaleCarbFatToCalories_noop ings ct (h : heap) :
  calorie_noop (stage_copy h ings) ct = true ->
  scaleCarbFatToCalories ings ct h
  = (seq (length h) (length ings), h ++ stage_copy h ings).
Proof.
  intros Hnoop.
  unfold scaleCarbFatToCalories, bind, cloneDeep, filterA, sumA, read_all, ret,
    bind.
  cbv beta iota zeta. fold (stage_copy h ings).
  set (vs := stage_copy h ings) in *.
  replace (length ings) with (length vs) by apply stage_copy_length.
  change (fun l => negb (isNonScaling (rd (h ++ vs) l)))
    with (fun l => scalable (rd (h ++ vs) l)).
  rewrite (map_rd_filter_fresh scalable), (map_rd_filter_fresh isNonScaling).
  fold (kcal_now vs). fold (fixed_kcal vs).
  unfold calorie_noop in Hnoop. by rewrite Hnoop.
Qed.

Lemma filter_none {A} (p : A -> bool) (l : list A) :
  Forall (fun x => p x = false) l -> List.filter p l = [].
Proof.
  induction 1 as [|x l Hx _ IH]; simpl; [done|]. by rewrite Hx.
Qed.

(** X14: a stage without its group does nothing.  Without any
    protein-bearing ingredient the protein stage returns the deep copy
    of its input, in input order, whatever the target and the stable
    indices; with nothing but non-scaling ingredients so does the
    calorie stage. *)
Theorem stage_without_group_is_noop ings t (h : heap) :
  (Forall (fun v => isProtein v = false) (stage_copy h ings) ->
   scaleProteinToTarget ings t h
   = (seq (length h) (length ings), h ++ stage_copy h ings)) /\
  (Forall (fun v => isNonScaling v = true) (stage_copy h ings) ->
   scaleCarbFatToCalories ings t h
   = (seq (length h) (length ings), h ++ stage_copy h ings)).
Proof.
  split; intros Hall.
  - apply scaleProteinToTarget_noop. unfold protein_noop.
    by rewrite (filter_none _ _ Hall).
  - apply scaleCarbFatToCalories_noop. unfold calorie_noop, kcal_now.
    rewrite (filter_none scalable); [done|].
    eapply Forall_impl; [exact Hall|]. intros v Hv. unfold scalable.
    by rewrite Hv.
Qed.

Lemma stage_without_group_is_noop_witness :
  scaleProteinToTarget [0; 1]%nat (Fin 40)
    [sample "pasta" 100 350 12; sample "salt" 1 0 0]
  = ([2; 3]%nat,
     [sample "pasta" 100 350 12; sample "salt" 1 0 0] ++
     stage_copy [sample "pasta" 100 350 12; sample "salt" 1 0 0] [0; 1]%nat).
Proof.
  apply (proj1 (stage_without_group_is_noop [0; 1]%nat (Fin 40)
                  [sample "pasta" 100 350 12; sample "salt" 1 0 0])).
  repeat constructor.
Defined.

(** X15: the ingredients outside a stage's group pass through it as
    plain deep copies: the protein stage leaves every ingredient that
    is not protein-bearing as copied, the calorie stage every
    non-scaling one. *)
Theorem stage_passes_others ings pt ct (h : heap) k l :
  ings !! k = Some l ->
  let old := clone_object (rd h l) in
  (isProtein old = false ->
   let '(res, h') := scaleProteinToTarget ings pt h in
   rd h' (length h + k) = old) /\
  (isNonScaling old = true ->
   let '(res, h') := scaleCarbFatToCalories ings ct h in
   rd h' (length h + k) = old).
Proof.
  intros Hl old.
  pose proof (stage_copy_lookup h ings k l Hl) as Hold. fold old in Hold.
  split; intros Hp.
  - destruct (scaleProteinToTarget_spec ings pt h) as (res & -> & _).
    rewrite (rd_block_lookup _ _ _ _ (protein_values_lookup _ pt _ _ Hold)).
    rewrite Hp. by destruct (protein_noop _ _).
  - destruct (scaleCarbFatToCalories_spec ings ct h) as (res & -> & _).
    rewrite (rd_block_lookup _ _ _ _ (calorie_values_lookup _ ct _ _ Hold)).
    unfold scalable. rewrite Hp. by destruct (calorie_noop _ _).
Qed.

Lemma stage_passes_others_witness :
  let h := [sample "salt" 5 50 0; sample "pasta" 100 200 7] in
  let '(res, h') := scaleCarbFatToCalories [0; 1]%nat (Fin 300) h in
  rd h' 2 = clone_object (sample "salt" 5 50 0).
Proof.
  exact (proj2 (stage_passes_others [0; 1]%nat NaN (Fin 300)
                  [sample "salt" 5 50 0; sample "pasta" 100 200 7] 0 0%nat
                  eq_refl) eq_refl).
Defined.

(** ** Targets at the edge *)

Section EdgeTargets.
Local Open Scope Q_scope.

Lemma Qred_zero q : q == 0 -> Qred q = 0.
Proof. intros H. by rewrite (Qred_complete _ _ H). Qed.

Lemma protein_now_finite vs :
  Forall json_clean vs -> exists s, protein_now vs = Fin s.
Proof.
  intros Hvs. unfold protein_now. apply sum_finite.
  apply Forall_forall. intros v Hv.
  apply list_elem_of_In, filter_In in Hv as [Hv _].
  apply list_elem_of_In in Hv.
  by destruct (clean_or0_finite v (proj1 (Forall_forall _ _) Hvs v Hv))
    as (_ & _ & ?).
Qed.

Lemma protein_factor_nonpositive t s :
  t <= 0 -> exists y, protein_factor (Fin t) (Fin s) = Fin y /\ y == 0.
Proof.
  intros Ht. unfold protein_factor.
  destruct (nmax_1_Fin s) as (b & -> & Hb).
  rewrite (ndiv_ge_1 _ _ Hb).
  assert (Hx : Qred (t / b) <= 0).
  { rewrite Qred_correct. apply Qle_shift_div_r; lra. }
  unfold nmax, nle. destruct (Qle_bool 0 (Qred (t / b))) eqn:E.
  - apply Qle_bool_iff in E. eexists. split; [reflexivity|]. lra.
  - by exists 0.
Qed.

(** X16: a finite protein target of zero or less empties the protein
    group: the factor is clamped to 0 and every protein-bearing
    ingredient comes out with 0 g, 0 kcal and 0 g of protein. *)
Theorem protein_stage_nonpositive_target ings t (h : heap) k l :
  ings !! k = Some l ->
  isProtein (clone_object (rd h l)) = true ->
  t <= 0 ->
  let '(res, h') := scaleProteinToTarget ings (Fin t) h in
  let new := rd h' (length h + k) in
  amount_g new = Some (Fin 0) /\
  calories_kcal new = Some (Fin 0) /\
  protein_g new = Some (Fin 0).
Proof.
  intros Hl Hp Ht. set (old := clone_object (rd h l)) in *.
  destruct (scaleProteinToTarget_spec ings (Fin t) h) as (res & -> & _).
  pose proof (stage_copy_lookup h ings k l Hl) as Hold. fold old in Hold.
  cbv zeta.
  rewrite (rd_block_lookup _ _ _ _ (protein_values_lookup _ (Fin t) _ _ Hold)).
  rewrite (protein_noop_false _ (Fin t) _ _ Hold Hp eq_refl), Hp.
  destruct (protein_now_finite _ (stage_copy_clean h ings)) as [s ->].
  destruct (protein_factor_nonpositive t s Ht) as (y & -> & Hy).
  destruct (scale_protein_item_fields (Fin y) old) as (Hg & Hc & Hpr).
  destruct (clean_or0_finite old (clone_object_clean _))
    as ([a Ea] & [c Ec] & [p Ep]).
  rewrite Ea in Hg, Hc, Hpr. rewrite Ec in Hc. rewrite Ep in Hpr.
  assert (E0 : nmul (Fin a) (Fin y) = Fin 0).
  { unfold nmul. f_equal. apply Qred_zero. rewrite Hy. ring. }
  rewrite E0 in Hg, Hc, Hpr.
  change (roundAmount (label old) "g" (Fin 0)) with (Fin 0) in Hg, Hc, Hpr.
  destruct (nmax_1_Fin a) as (b & Eb & Hb).
  rewrite Eb, (ndiv_ge_1 _ _ Hb) in Hc, Hpr.
  assert (Ef : Qred (0 / b) = 0).
  { apply Qred_zero. unfold Qdiv. ring. }
  rewrite Ef in Hc, Hpr.
  assert (Ez : forall x, nmul (Fin x) (Fin 0) = Fin 0).
  { intros x. unfold nmul. f_equal. apply Qred_zero. ring. }
  rewrite Ez in Hc, Hpr. done.
Qed.

Lemma protein_stage_nonpositive_target_witness :
  let '(res, h') :=
    scaleProteinToTarget [0%nat] (Fin (-3)) [sample "chicken" 150 250 30] in
  amount_g (rd h' 1) = Some (Fin 0) /\
  calories_kcal (rd h' 1) = Some (Fin 0) /\
  protein_g (rd h' 1) = Some (Fin 0).
Proof.
  apply (protein_stage_nonpositive_target [0%nat] (-3)
           [sample "chicken" 150 250 30] 0 0%nat);
    [reflexivity | reflexivity | discriminate].
Defined.

Lemma residual_target_nonpositive ct f :
  ngt ct (Fin 0) = false -> 0 <= f ->
  nle (residual_target ct (Fin f)) (Fin 0) = true.
Proof.
  intros Hct Hf. unfold residual_target, num_or, truthy.
  assert (Hfin : forall c, c <= 0 ->
            nle (nmax (Fin 0) (nsub (Fin c) (Fin f))) (Fin 0) = true).
  { intros c Hc. unfold nsub, nneg, nadd, nmax, nle.
    assert (Hx : Qred (c + Qred (- f)) <= 0)
      by (rewrite !Qred_correct; lra).
    destruct (Qle_bool 0 _) eqn:E; [by apply Qle_bool_iff | done]. }
  destruct ct as [t| | |]; try done.
  - simpl in Hct. apply Qltb_false in Hct.
    destruct (Qzerob t); [apply Hfin; lra | by apply Hfin].
  - apply Hfin. lra.
Qed.

(** X17: with a calorie target that is not a positive number (zero,
    negative, NaN or -Infinity) and no negative calories among the
    non-scaling ingredients, the calorie stage scales nothing: it
    returns the deep copy of its input. *)
Theorem calorie_stage_nonpositive_target ings ct (h : heap) :
  ngt ct (Fin 0) = false ->
  Forall (fun v => isNonScaling v = true ->
                   exists c, or0 (calories_kcal v) = Fin c /\ 0 <= c)
         (stage_copy h ings) ->
  scaleCarbFatToCalories ings ct h
  = (seq (length h) (length ings), h ++ stage_copy h ings).
Proof.
  intros Hct Hcal. apply scaleCarbFatToCalories_noop. unfold calorie_noop.
  assert (Hfix : exists f, fixed_kcal (stage_copy h ings) = Fin f /\ 0 <= f).
  { unfold fixed_kcal. apply sum_nonneg.
    apply Forall_forall. intros v Hv.
    apply list_elem_of_In, filter_In in Hv as [Hv Hns].
    apply list_elem_of_In in Hv.
    by apply (proj1 (Forall_forall _ _) Hcal v Hv). }
  destruct Hfix as (f & -> & Hf).
  by rewrite (residual_target_nonpositive ct f Hct Hf), orb_true_r.
Qed.

Lemma calorie_stage_nonpositive_target_witness :
  scaleCarbFatToCalories [0; 1]%nat NaN
    [sample "salt" 5 50 0; sample "pasta" 100 200 7]
  = ([2; 3]%nat,
     [sample "salt" 5 50 0; sample "pasta" 100 200 7] ++
     stage_copy [sample "salt" 5 50 0; sample "pasta" 100 200 7] [0; 1]%nat).
Proof.
  apply (calorie_stage_nonpositive_target [0; 1]%nat NaN
           [sample "salt" 5 50 0; sample "pasta" 100 200 7] eq_refl).
  repeat constructor; intros _; eexists; (split; [reflexivity | discriminate]).
Defined.

End EdgeTargets.

(** ** How close the protein stage gets *)

Section ProteinAccuracy.
Local Open Scope Q_scope.




End ProteinAccuracy.

(** ** The direction of the nudge *)

Section NudgeDirection.
Local Open Scope Q_scope.





End NudgeDirection.

(** ** The classifier and letter case *)

Lemma toLowerCase_str_or a b :
  toLowerCase (str_or a b)
  = str_or (option_map toLowerCase a) (toLowerCase b).
Proof. destruct a as [[|c s]|]; done. Qed.

Lemma lower_label i :
  toLowerCase (label i)
  = str_or (option_map toLowerCase (name i))
           (str_or (option_map toLowerCase (ingredient i)) "").
Proof. unfold label. by rewrite !toLowerCase_str_or. Qed.

Lemma existsb_lower_tags (words : list string) (tags : option (list string)) :
  existsb (fun t => test_i words t) (default [] tags)
  = existsb (test words) (default [] (option_map (map toLowerCase) tags)).
Proof.
  destruct tags as [ts|]; simpl; [|done].
  induction ts as [|t ts IH]; simpl; [done|]. by rewrite IH.
Qed.

Lemma classify_case tag_words name_words i j :
  same_text_up_to_case i j ->
  classify tag_words name_words i = classify tag_words name_words j.
Proof.
  intros (Hn & Hi & Ht). unfold classify. cbv zeta.
  by rewrite !existsb_lower_tags, !lower_label, Hn, Hi, Ht.
Qed.

(** X20: the classifier ignores the case of ASCII letters: two
    ingredients whose name, label and tags differ only in letter case
    get the same three classifications and the same density guess. *)
Theorem classification_ignores_case i j :
  same_text_up_to_case i j ->
  isProtein i = isProtein j /\
  isCarbFat i = isCarbFat j /\
  isNonScaling i = isNonScaling j /\
  guessGPerCup (label i) = guessGPerCup (label j).
Proof.
  intros Hsame. repeat split; try by apply classify_case.
  destruct Hsame as (Hn & Hi & _).
  unfold guessGPerCup. cbv zeta. by rewrite !lower_label, Hn, Hi.
Qed.

Lemma classification_ignores_case_witness :
  isProtein (sample "Chicken BREAST" 150 250 30)
  = isProtein (sample "chicken breast" 150 250 30) /\
  isCarbFat (sample "Chicken BREAST" 150 250 30)
  = isCarbFat (sample "chicken breast" 150 250 30) /\
  isNonScaling (sample "Chicken BREAST" 150 250 30)
  = isNonScaling (sample "chicken breast" 150 250 30) /\
  guessGPerCup (label (sample "Chicken BREAST" 150 250 30))
  = guessGPerCup (label (sample "chicken breast" 150 250 30)).
Proof.
  apply (classification_ignores_case (sample "Chicken BREAST" 150 250 30)
           (sample "chicken breast" 150 250 30)).
  repeat split.
Defined.

(** * Properties of the weekly plan *)

(** ** Buckets *)

Lemma splitByType_fold recipes acc :
  fold_left
    (fun acc r =>
       let t := meal_type_of r in
       if String.eqb t "breakfast"
       then Split.mk (Split.B acc ++ [r]) (Split.S acc) (Split.D acc)
       else if String.eqb t "snack" || String.eqb t "snacks"
       then Split.mk (Split.B acc) (Split.S acc ++ [r]) (Split.D acc)
       else if String.eqb t "dinner"
       then Split.mk (Split.B acc) (Split.S acc) (Split.D acc ++ [r])
       else acc)
    recipes acc
  = Split.mk (Split.B acc ++ List.filter is_breakfast recipes)
             (Split.S acc ++ List.filter is_snack recipes)
             (Split.D acc ++ List.filter is_dinner recipes).
Proof.
  revert acc. induction recipes as [|r rs IH]; intros [b s d]; simpl.
  - by rewrite !app_nil_r.
  - rewrite IH. unfold is_breakfast, is_snack, is_dinner.
    destruct (String.eqb (meal_type_of r) "breakfast") eqn:Eb.
    + apply String.eqb_eq in Eb. rewrite Eb. simpl. by rewrite <- app_assoc.
    + destruct (String.eqb (meal_type_of r) "snack"
                || String.eqb (meal_type_of r) "snacks") eqn:Es.
      * assert (Ed : String.eqb (meal_type_of r) "dinner" = false).
        { apply orb_true_iff in Es as [Es|Es];
            apply String.eqb_eq in Es; by rewrite Es. }
        rewrite Ed. simpl. by rewrite <- app_assoc.
      * destruct (String.eqb (meal_type_of r) "dinner"); simpl;
          by rewrite <- ?app_assoc.
Qed.

(** X21: [splitByType] returns, each in input order, exactly the
    recipes whose lower-cased meal type is "breakfast", those whose
    type is "snack" or "snacks" and those whose type is "dinner";
    recipes of any other or of no type are in no bucket, and no recipe
    is in two. *)
Theorem splitByType_buckets recipes :
  splitByType recipes
  = Split.mk (List.filter is_breakfast recipes)
             (List.filter is_snack recipes)
             (List.filter is_dinner recipes) /\
  forall r, is_breakfast r && is_snack r = false /\
            is_breakfast r && is_dinner r = false /\
            is_snack r && is_dinner r = false.
Proof.
  split; [apply splitByType_fold|].
  intros r. unfold is_breakfast, is_snack, is_dinner.
  destruct (String.eqb (meal_type_of r) "breakfast") eqn:Eb;
    [apply String.eqb_eq in Eb; by rewrite Eb|].
  destruct (String.eqb (meal_type_of r) "snack") eqn:Es;
    [apply String.eqb_eq in Es; by rewrite Es|].
  destruct (String.eqb (meal_type_of r) "snacks") eqn:Es';
    [apply String.eqb_eq in Es'; by rewrite Es'|].
  done.
Qed.

(** ** The meals of a day *)

Lemma day_meals_slots B S D mealsPerDay activePath proteinPerMeal day :
  day_meals B S D mealsPerDay activePath proteinPerMeal day
  = slot B day activePath (breakfast_meal proteinPerMeal)
    ++ slot D (day + 6) activePath (lunch_meal proteinPerMeal)
    ++ (if is_four mealsPerDay
        then slot S day activePath (snack_meal proteinPerMeal) else [])
    ++ slot D day activePath (dinner_meal proteinPerMeal).
Proof.
  unfold day_meals, slot, breakfast_meal, lunch_meal, snack_meal, dinner_meal.
  cbv zeta.
  assert (Hnil : forall i : nat, (@nil Scaled.t) !! i = None) by done.
  destruct (is_four mealsPerDay); simpl andb;
    destruct B as [|b B]; destruct S as [|s S]; destruct D as [|d D];
    rewrite ?Hnil; simpl length;
    change (negb (0 =? 0)%nat) with false;
    repeat match goal with
           | |- context [negb (Datatypes.S ?n =? 0)%nat] =>
               change (negb (Datatypes.S n =? 0)%nat) with true
           end;
    cbv iota;
    repeat match goal with
           | |- context [match ?x !! ?i with _ => _ end] =>
               destruct (x !! i)
           | |- context [match variant_serving ?r ?a with _ => _ end] =>
               destruct (variant_serving r a)
           end;
    reflexivity.
Qed.

Lemma slot_cases X idx activePath meal :
  slot X idx activePath meal = [] \/
  exists r ss, X !! (idx mod length X)%nat = Some r /\
               variant_serving r activePath = Some ss /\
               slot X idx activePath meal = [meal r ss].
Proof.
  unfold slot. destruct (X !! _) as [r|]; [|by left].
  destruct (variant_serving r activePath) as [ss|] eqn:Hs; [|by left].
  right. exists r, ss. auto.
Qed.

Lemma slot_Forall (P : Meal.t -> Prop) X idx activePath meal :
  (forall r ss, X !! (idx mod length X)%nat = Some r ->
                variant_serving r activePath = Some ss -> P (meal r ss)) ->
  Forall P (slot X idx activePath meal).
Proof.
  intros H. destruct (slot_cases X idx activePath meal)
    as [->|(r & ss & Hr & Hs & ->)]; [constructor|].
  constructor; [by apply H | constructor].
Qed.

Lemma slot_full X idx activePath meal :
  X <> [] ->
  Forall (fun r => is_Some (variant_serving r activePath)) X ->
  exists r ss, slot X idx activePath meal = [meal r ss].
Proof.
  intros Hne Hall.
  assert (Hlt : (idx mod length X < length X)%nat).
  { apply Nat.mod_upper_bound. by destruct X. }
  destruct (lookup_lt_is_Some_2 X _ Hlt) as [r Hr].
  destruct (proj1 (Forall_lookup _ _) Hall _ _ Hr) as [ss Hs].
  exists r, ss. unfold slot. by rewrite Hr, Hs.
Qed.

Lemma slot_calories X idx activePath meal :
  (forall r ss, Meal.calories_kcal (meal r ss) = Serving.calories_kcal ss) ->
  map Meal.calories_kcal (slot X idx activePath meal)
  = match X !! (idx mod length X)%nat ≫= path_calories activePath with
    | Some c => [c]
    | None => []
    end.
Proof.
  intros H. unfold slot, path_calories.
  destruct (X !! _) as [r|]; [|done]. simpl.
  destruct (variant_serving r activePath) as [ss|]; [|done].
  simpl. by rewrite H.
Qed.

Lemma filter_slot ty ty' X idx activePath meal :
  (forall r ss, Meal.meal_type (meal r ss) = ty') ->
  List.filter (fun m => String.eqb (Meal.meal_type m) ty)
              (slot X idx activePath meal)
  = if String.eqb ty' ty then slot X idx activePath meal else [].
Proof.
  intros H. destruct (slot_cases X idx activePath meal)
    as [->|(r & ss & _ & _ & ->)]; [by destruct (String.eqb ty' ty)|].
  simpl. rewrite H. by destruct (String.eqb ty' ty).
Qed.

Lemma plan_days recipes mealsPerDay activePath proteinPerMeal :
  buildWeeklyPlanFromScaled recipes mealsPerDay activePath proteinPerMeal
  = map (fun day =>
           Day.mk (Z.of_nat day + 1)
             (slot (List.filter is_breakfast recipes) day activePath
                   (breakfast_meal proteinPerMeal)
              ++ slot (List.filter is_dinner recipes) (day + 6) activePath
                      (lunch_meal proteinPerMeal)
              ++ (if is_four mealsPerDay
                  then slot (List.filter is_snack recipes) day activePath
                            (snack_meal proteinPerMeal)
                  else [])
              ++ slot (List.filter is_dinner recipes) day activePath
                      (dinner_meal proteinPerMeal)))
        (seq 0 7).
Proof.
  unfold buildWeeklyPlanFromScaled. cbv zeta.
  apply map_ext. intros day. rewrite day_meals_slots.
  unfold splitByType. by rewrite splitByType_fold.
Qed.

Lemma plan_lookup recipes mealsPerDay activePath proteinPerMeal d day :
  buildWeeklyPlanFromScaled recipes mealsPerDay activePath proteinPerMeal
    !! d = Some day ->
  (d < 7)%nat /\
  Day.day day = (Z.of_nat d + 1)%Z /\
  Day.meals day
  = slot (List.filter is_breakfast recipes) d activePath
         (breakfast_meal proteinPerMeal)
    ++ slot (List.filter is_dinner recipes) (d + 6) activePath
            (lunch_meal proteinPerMeal)
    ++ (if is_four mealsPerDay
        then slot (List.filter is_snack recipes) d activePath
                  (snack_meal proteinPerMeal)
        else [])
    ++ slot (List.filter is_dinner recipes) d activePath
            (dinner_meal proteinPerMeal).
Proof.
  rewrite plan_days. intros H.
  apply list_lookup_fmap_Some_1 in H as (i & -> & Hi).
  apply lookup_seq in Hi as [-> Hlt]. by simpl.
Qed.

Lemma lunch_calories recipes mealsPerDay activePath proteinPerMeal d day :
  buildWeeklyPlanFromScaled recipes mealsPerDay activePath proteinPerMeal
    !! d = Some day ->
  map Meal.calories_kcal (meals_of_type "lunch" day)
  = match List.filter is_dinner recipes
          !! ((d + 6) mod length (List.filter is_dinner recipes))%nat
          ≫= path_calories activePath with
    | Some c => [c]
    | None => []
    end.
Proof.
  intros H. apply plan_lookup in H as (_ & _ & Hm).
  unfold meals_of_type. rewrite Hm, !List.filter_app.
  rewrite (filter_slot "lunch" "breakfast") by done.
  rewrite (filter_slot "lunch" "lunch") by done.
  rewrite (filter_slot "lunch" "dinner") by done.
  assert (Hs : List.filter (fun m => String.eqb (Meal.meal_type m) "lunch")
                 (if is_four mealsPerDay
                  then slot (List.filter is_snack recipes) d activePath
                            (snack_meal proteinPerMeal)
                  else []) = []).
  { destruct (is_four mealsPerDay); [|done].
    by rewrite (filter_slot "lunch" "snack"). }
  rewrite Hs. simpl. rewrite app_nil_r.
  by apply slot_calories.
Qed.

Lemma dinner_calories recipes mealsPerDay activePath proteinPerMeal d day :
  buildWeeklyPlanFromScaled recipes mealsPerDay activePath proteinPerMeal
    !! d = Some day ->
  map Meal.calories_kcal (meals_of_type "dinner" day)
  = match List.filter is_dinner recipes
          !! (d mod length (List.filter is_dinner recipes))%nat
          ≫= path_calories activePath with
    | Some c => [c]
    | None => []
    end.
Proof.
  intros H. apply plan_lookup in H as (_ & _ & Hm).
  unfold meals_of_type. rewrite Hm, !List.filter_app.
  rewrite (filter_slot "dinner" "breakfast") by done.
  rewrite (filter_slot "dinner" "lunch") by done.
  rewrite (filter_slot "dinner" "dinner") by done.
  assert (Hs : List.filter (fun m => String.eqb (Meal.meal_type m) "dinner")
                 (if is_four mealsPerDay
                  then slot (List.filter is_snack recipes) d activePath
                            (snack_meal proteinPerMeal)
                  else []) = []).
  { destruct (is_four mealsPerDay); [|done].
    by rewrite (filter_slot "dinner" "snack"). }
  rewrite Hs. simpl.
  by apply slot_calories.
Qed.

Lemma rotation_back n e :
  (7 mod n = 0)%nat -> ((S e + 6) mod n = e mod n)%nat.
Proof.
  intros H. replace (S e + 6)%nat with (e + 7)%nat by lia.
  rewrite Nat.Div0.add_mod, H, Nat.add_0_r. apply Nat.Div0.mod_mod.
Qed.

Lemma rotation_off n e :
  n <> 0%nat -> (7 mod n <> 0)%nat -> ((S e + 6) mod n <> e mod n)%nat.
Proof.
  intros Hn H7 Heq. apply H7.
  replace (S e + 6)%nat with (e + 7)%nat in Heq by lia.
  pose proof (Nat.div_mod_eq (e + 7) n) as H1.
  pose proof (Nat.div_mod_eq e n) as H2.
  rewrite Heq in H1.
  assert (H : (7 = ((e + 7) / n - e / n) * n)%nat) by nia.
  rewrite H. apply Nat.Div0.mod_mul.
Qed.

(** ** The plan *)

(** X22: the plan always has seven entries, numbered 1 to 7 in order,
    and the meals of a day are a selection of breakfast, lunch, snack,
    dinner in that order: at most four meals, at most one of each
    type. *)
Theorem weekly_plan_shape recipes mealsPerDay activePath proteinPerMeal :
  let plan := buildWeeklyPlanFromScaled recipes mealsPerDay activePath
                proteinPerMeal in
  map Day.day plan = [1; 2; 3; 4; 5; 6; 7]%Z /\
  Forall (fun d => sublist (map Meal.meal_type (Day.meals d))
                           ["breakfast"; "lunch"; "snack"; "dinner"]) plan.
Proof.
  cbv zeta. split; [by rewrite plan_days|].
  apply Forall_lookup. intros d day H.
  apply plan_lookup in H as (_ & _ & ->).
  destruct (slot_cases (List.filter is_breakfast recipes) d activePath
              (breakfast_meal proteinPerMeal)) as [->|(? & ? & _ & _ & ->)];
    destruct (slot_cases (List.filter is_dinner recipes) (d + 6) activePath
                (lunch_meal proteinPerMeal)) as [->|(? & ? & _ & _ & ->)];
    destruct (slot_cases (List.filter is_dinner recipes) d activePath
                (dinner_meal proteinPerMeal)) as [->|(? & ? & _ & _ & ->)];
    (destruct (is_four mealsPerDay);
     [destruct (slot_cases (List.filter is_snack recipes) d activePath
                  (snack_meal proteinPerMeal)) as [->|(? & ? & _ & _ & ->)]|]);
    unfold breakfast_meal, lunch_meal, snack_meal, dinner_meal; simpl;
    repeat first [apply sublist_nil | apply sublist_skip | apply sublist_cons].
Qed.

(** X23: unless the number of meals per day is 4, no day has a snack,
    so a day has at most three meals. *)
Theorem no_snack_unless_four recipes mealsPerDay activePath proteinPerMeal :
  is_four mealsPerDay = false ->
  Forall (fun d => meals_of_type "snack" d = [] /\
                   (length (Day.meals d) <= 3)%nat)
         (buildWeeklyPlanFromScaled recipes mealsPerDay activePath
            proteinPerMeal).
Proof.
  intros H4. apply Forall_lookup. intros d day H.
  apply plan_lookup in H as (_ & _ & Hm).
  unfold meals_of_type. rewrite Hm, H4. clear Hm.
  destruct (slot_cases (List.filter is_breakfast recipes) d activePath
              (breakfast_meal proteinPerMeal)) as [->|(? & ? & _ & _ & ->)];
    destruct (slot_cases (List.filter is_dinner recipes) (d + 6) activePath
                (lunch_meal proteinPerMeal)) as [->|(? & ? & _ & _ & ->)];
    destruct (slot_cases (List.filter is_dinner recipes) d activePath
                (dinner_meal proteinPerMeal)) as [->|(? & ? & _ & _ & ->)];
    simpl; split; (done || lia).
Qed.

Lemma no_snack_unless_four_witness :
  let r := Scaled.mk (Some "Chili") (Some "Snack")
             (Some {[ "A" := Variant.mk
                        (Some (Serving.mk (Some (Fin 300)) (Some (Fin 30)))) ]})
  in
  is_four (Fin 3) = false /\
  Forall (fun d => meals_of_type "snack" d = [] /\
                   (length (Day.meals d) <= 3)%nat)
         (buildWeeklyPlanFromScaled [r] (Fin 3) "A" (Fin 30)).
Proof.
  cbv zeta. split; [reflexivity|].
  apply no_snack_unless_four. reflexivity.
Defined.

(** X24: every meal of the plan carries the given protein per meal and
    the calories of the serving that some input recipe has on the
    active path; a breakfast comes from a breakfast recipe, a snack
    from a snack recipe, and a lunch, like a dinner, from a dinner
    recipe. *)
Theorem weekly_plan_meal_origin recipes mealsPerDay activePath
  proteinPerMeal :
  Forall (fun d =>
    Forall (fun meal =>
      Meal.protein_g meal = proteinPerMeal /\
      exists r ss,
        In r recipes /\
        variant_serving r activePath = Some ss /\
        Meal.calories_kcal meal = Serving.calories_kcal ss /\
        ((Meal.meal_type meal = "breakfast" /\ is_breakfast r = true) \/
         (Meal.meal_type meal = "lunch" /\ is_dinner r = true) \/
         (Meal.meal_type meal = "snack" /\ is_snack r = true) \/
         (Meal.meal_type meal = "dinner" /\ is_dinner r = true)))
      (Day.meals d))
    (buildWeeklyPlanFromScaled recipes mealsPerDay activePath
       proteinPerMeal).
Proof.
  apply Forall_lookup. intros d day H.
  apply plan_lookup in H as (_ & _ & ->).
  assert (Hin : forall p i r,
             List.filter p recipes !! i = Some r ->
             In r recipes /\ p r = true).
  { intros p i r Hr. apply list_elem_of_lookup_2, list_elem_of_In in Hr.
    by apply filter_In in Hr. }
  repeat apply Forall_app_2.
  - apply slot_Forall. intros r ss Hr Hs.
    destruct (Hin _ _ _ Hr) as [Hi Hp].
    split; [done|]. exists r, ss. repeat split; try done. by left.
  - apply slot_Forall. intros r ss Hr Hs.
    destruct (Hin _ _ _ Hr) as [Hi Hp].
    split; [done|]. exists r, ss. repeat split; try done. right. by left.
  - destruct (is_four mealsPerDay); [|constructor].
    apply slot_Forall. intros r ss Hr Hs.
    destruct (Hin _ _ _ Hr) as [Hi Hp].
    split; [done|]. exists r, ss. repeat split; try done.
    right. right. by left.
  - apply slot_Forall. intros r ss Hr Hs.
    destruct (Hin _ _ _ Hr) as [Hi Hp].
    split; [done|]. exists r, ss. repeat split; try done.
    right. right. by right.
Qed.

(** X25: when the number of dinner recipes divides 7 (one recipe or
    seven), the lunch of each day after the first has the calories of
    the dinner of the day before, as its label says. *)
Theorem lunch_is_previous_dinner recipes mealsPerDay activePath
  proteinPerMeal e day_e day_d :
  let plan := buildWeeklyPlanFromScaled recipes mealsPerDay activePath
                proteinPerMeal in
  (7 mod length (List.filter is_dinner recipes) = 0)%nat ->
  plan !! e = Some day_e ->
  plan !! S e = Some day_d ->
  map Meal.calories_kcal (meals_of_type "lunch" day_d)
  = map Meal.calories_kcal (meals_of_type "dinner" day_e).
Proof.
  cbv zeta. intros H7 He Hd.
  rewrite (lunch_calories _ _ _ _ _ _ Hd), (dinner_calories _ _ _ _ _ _ He).
  by rewrite rotation_back.
Qed.

Lemma lunch_is_previous_dinner_witness :
  let r := Scaled.mk (Some "Chili") (Some "Dinner")
             (Some {[ "A" := Variant.mk
                        (Some (Serving.mk (Some (Fin 600)) (Some (Fin 30)))) ]})
  in
  let day n := Day.mk n
    [Meal.mk "Lunch — leftovers from previous day's dinner" "lunch"
             (Some (Fin 600)) (Fin 30);
     Meal.mk "Dinner — Chili" "dinner" (Some (Fin 600)) (Fin 30)] in
  map Meal.calories_kcal (meals_of_type "lunch" (day 3%Z))
  = map Meal.calories_kcal (meals_of_type "dinner" (day 2%Z)).
Proof.
  cbv zeta.
  apply (lunch_is_previous_dinner
           [Scaled.mk (Some "Chili") (Some "Dinner")
              (Some {[ "A" := Variant.mk
                         (Some (Serving.mk (Some (Fin 600))
                                           (Some (Fin 30)))) ]})]
           (Fin 3) "A" (Fin 30) 1%nat);
    reflexivity.
Defined.

(** X26: when the number of dinner recipes does not divide 7 and the
    dinner recipes differ in the calories they offer on the active
    path, the lunch of a day never has the calories of the dinner of
    the day before: the rotation of the lunches is seven places behind
    that of the dinners, not one. *)
Theorem lunch_differs_from_previous_dinner recipes mealsPerDay activePath
  proteinPerMeal e day_e day_d :
  let plan := buildWeeklyPlanFromScaled recipes mealsPerDay activePath
                proteinPerMeal in
  let D := List.filter is_dinner recipes in
  D <> [] ->
  (7 mod length D <> 0)%nat ->
  NoDup (map (path_calories activePath) D) ->
  plan !! e = Some day_e ->
  plan !! S e = Some day_d ->
  map Meal.calories_kcal (meals_of_type "lunch" day_d)
  <> map Meal.calories_kcal (meals_of_type "dinner" day_e).
Proof.
  cbv zeta. intros Hne H7 Hnd He Hd.
  rewrite (lunch_calories _ _ _ _ _ _ Hd), (dinner_calories _ _ _ _ _ _ He).
  set (D := List.filter is_dinner recipes) in *.
  assert (Hn : length D <> 0%nat) by by destruct D.
  pose proof (rotation_off (length D) e Hn H7) as Hoff.
  assert (H1 : ((S e + 6) mod length D < length D)%nat)
    by by apply Nat.mod_upper_bound.
  assert (H2 : (e mod length D < length D)%nat)
    by by apply Nat.mod_upper_bound.
  destruct (lookup_lt_is_Some_2 D _ H1) as [r1 Hr1].
  destruct (lookup_lt_is_Some_2 D _ H2) as [r2 Hr2].
  rewrite Hr1, Hr2. simpl.
  assert (Hdiff : path_calories activePath r1 <> path_calories activePath r2).
  { intros Heq. apply Hoff.
    eapply (NoDup_lookup _ _ _ _ Hnd); rewrite list_lookup_fmap.
    - by rewrite Hr1.
    - rewrite Hr2. simpl. by rewrite Heq. }
  destruct (path_calories activePath r1), (path_calories activePath r2);
    congruence.
Qed.

Lemma lunch_differs_from_previous_dinner_witness :
  let day n name kcal := Day.mk n
    [Meal.mk "Lunch — leftovers from previous day's dinner" "lunch"
             (Some (Fin kcal)) (Fin 30);
     Meal.mk name "dinner" (Some (Fin kcal)) (Fin 30)] in
  map Meal.calories_kcal
      (meals_of_type "lunch" (day 2%Z "Dinner — Curry" 650%Q))
  <> map Meal.calories_kcal
         (meals_of_type "dinner" (day 1%Z "Dinner — Chili" 600%Q)).
Proof.
  cbv zeta.
  pose (dinner := fun name kcal =>
    Scaled.mk (Some name) (Some "dinner")
      (Some {[ "A" := Variant.mk
                 (Some (Serving.mk (Some (Fin kcal)) (Some (Fin 30)))) ]})).
  apply (lunch_differs_from_previous_dinner
           [dinner "Chili" 600%Q; dinner "Curry" 650%Q; dinner "Stew" 700%Q]
           (Fin 3) "A" (Fin 30) 0%nat).
  - discriminate.
  - vm_compute. discriminate.
  - vm_compute.
    repeat (apply NoDup_cons_2; [intros Hin|]); try apply NoDup_nil_2;
      repeat (inversion Hin as [|? ? ? Hin']; subst; clear Hin;
              rename Hin' into Hin);
      inversion Hin.
  - reflexivity.
  - reflexivity.
Defined.

(** X27: when no recipe has a serving on the active path (in
    particular for an empty list, or a path no variant is stored under)
    the plan still has its seven days, each with no meals. *)
Theorem plan_without_servings recipes mealsPerDay activePath
  proteinPerMeal :
  Forall (fun r => variant_serving r activePath = None) recipes ->
  map Day.meals (buildWeeklyPlanFromScaled recipes mealsPerDay activePath
                   proteinPerMeal)
  = replicate 7 [].
Proof.
  intros Hno.
  assert (Hslot : forall p i meal,
             slot (List.filter p recipes) i activePath meal = []).
  { intros p i meal.
    destruct (slot_cases (List.filter p recipes) i activePath meal)
      as [->|(r & ss & Hr & Hs & _)]; [done|].
    apply list_elem_of_lookup_2, list_elem_of_In, filter_In in Hr as [Hr _].
    apply list_elem_of_In in Hr.
    rewrite (proj1 (Forall_forall _ _) Hno r Hr) in Hs. discriminate. }
  rewrite plan_days, map_map. simpl.
  rewrite !Hslot. by destruct (is_four mealsPerDay).
Qed.

Lemma plan_without_servings_witness :
  let r := Scaled.mk (Some "Chili") (Some "dinner")
             (Some {[ "A" := Variant.mk
                        (Some (Serving.mk (Some (Fin 600)) (Some (Fin 30)))) ]})
  in
  Forall (fun r => variant_serving r "B" = None) [r] /\
  map Day.meals (buildWeeklyPlanFromScaled [r] (Fin 4) "B" (Fin 30))
  = replicate 7 [].
Proof.
  cbv zeta. split.
  - by repeat constructor.
  - apply plan_without_servings. by repeat constructor.
Defined.

(** X28: when there is a breakfast recipe and a dinner recipe and
    every recipe has a serving on the active path, each of the seven
    days has a breakfast, a lunch and a dinner, and a snack between
    lunch and dinner exactly when four meals per day are asked for and
    there is a snack recipe. *)
Theorem full_days recipes mealsPerDay activePath proteinPerMeal :
  Forall (fun r => is_Some (variant_serving r activePath)) recipes ->
  List.filter is_breakfast recipes <> [] ->
  List.filter is_dinner recipes <> [] ->
  Forall (fun d =>
    map Meal.meal_type (Day.meals d)
    = ["breakfast"; "lunch"]
      ++ (if is_four mealsPerDay
             && negb (length (List.filter is_snack recipes) =? 0)%nat
          then ["snack"] else [])
      ++ ["dinner"])
    (buildWeeklyPlanFromScaled recipes mealsPerDay activePath
       proteinPerMeal).
Proof.
  intros Hall Hb Hd.
  assert (Hsub : forall p,
             Forall (fun r => is_Some (variant_serving r activePath))
                    (List.filter p recipes)).
  { intros p. apply Forall_forall. intros r Hr.
    apply list_elem_of_In, filter_In in Hr as [Hr _].
    apply list_elem_of_In in Hr.
    by apply (proj1 (Forall_forall _ _) Hall). }
  apply Forall_lookup. intros d day H.
  apply plan_lookup in H as (_ & _ & ->).
  destruct (slot_full _ d activePath (breakfast_meal proteinPerMeal)
              Hb (Hsub _)) as (? & ? & ->).
  destruct (slot_full _ (d + 6)%nat activePath (lunch_meal proteinPerMeal)
              Hd (Hsub _)) as (? & ? & ->).
  destruct (slot_full _ d activePath (dinner_meal proteinPerMeal)
              Hd (Hsub _)) as (? & ? & ->).
  destruct (is_four mealsPerDay); simpl andb; [|done].
  destruct (List.filter is_snack recipes) as [|s S] eqn:Es.
  - done.
  - assert (Hs : s :: S <> []) by done.
    rewrite <- Es in Hs |- *.
    destruct (slot_full _ d activePath (snack_meal proteinPerMeal)
                Hs (Hsub _)) as (? & ? & ->).
    by rewrite Es.
Qed.

Lemma full_days_witness :
  let rec name type kcal :=
    Scaled.mk (Some name) (Some type)
      (Some {[ "A" := Variant.mk
                 (Some (Serving.mk (Some (Fin kcal)) (Some (Fin 30)))) ]}) in
  let recipes := [rec "Oats" "Breakfast" 400%Q; rec "Chili" "dinner" 600%Q;
                  rec "Nuts" "snacks" 200%Q] in
  Forall (fun d =>
    map Meal.meal_type (Day.meals d)
    = ["breakfast"; "lunch"; "snack"; "dinner"])
    (buildWeeklyPlanFromScaled recipes (Fin 4) "A" (Fin 30)).
Proof.
  cbv zeta.
  match goal with
  | |- Forall _ (buildWeeklyPlanFromScaled ?r _ _ _) =>
      refine (full_days r (Fin 4) "A" (Fin 30) _ _ _)
  end.
  - repeat constructor; by eexists.
  - discriminate.
  - discriminate.
Defined.
